(** * Dynamic command engine of the bot (src/app.py)

    A shallow embedding of the code validator ([validate_user_code] and
    [SimpleASTValidator]), of the JSONBin persistence helpers, of the
    per-guild command registry ([register_dynamic_command] and the
    [delete_command] / [rename_command] slash commands) and of the
    invocation [callback], followed by the properties the design
    document states about them.

    Conventions.
    - A Python [str] is a [string]; one character stands for one code
      point, so [len(code)] is [String.length code].
    - A [dict] used as a map is a [gmap]; the guild and command names are
      its keys.
    - What app.py reaches through a library (the Python parser, [exec],
      the interpreter's stack, HTTP) is not code of the program: the
      parser, [textwrap.dedent], [exec] and the recursion limit are
      fields of [Env]; the answers of the remote store are a script
      carried by the [World].  The command tree of discord.py is the map
      of the commands of each guild, with the two checks of its
      [add_command]. *)

From Equations Require Import Equations.
From stdpp Require Import gmap strings list pretty.
From Stdlib Require Import ZArith.

Local Open Scope Z_scope.
Local Open Scope string_scope.

(** ** Python syntax trees, as [ast.NodeVisitor] and [ast.walk] see them

    Both traversals are written by reflection: a node is its class name
    and its [_fields], in order; a field holds a node, a list (whose items
    are nodes, or [None]/strings, which the traversals skip), a string or
    some other constant. *)

Inductive value (N : Type) : Type :=
| VNode (n : N)
| VList (items : list (option N))
| VStr (s : string)
| VNone.
Arguments VNode {N} n.
Arguments VList {N} items.
Arguments VStr {N} s.
Arguments VNone {N}.

#[warnings="-register-all"]
Inductive node : Type :=
| Node (cls : string) (fields : list (string * value node)).

Definition node_cls (n : node) : string := match n with Node cls _ => cls end.
Definition node_fields (n : node) : list (string * value node) :=
  match n with Node _ fields => fields end.

(** [getattr(node, name)] for a field of the node. *)
Fixpoint get_field (name : string) (fields : list (string * value node))
  : option (value node) :=
  match fields with
  | [] => None
  | (k, v) :: rest => if String.eqb k name then Some v else get_field name rest
  end.

(** The nodes held by one field, in order. *)
Definition value_children (v : value node) : list node :=
  match v with
  | VNode n => [n]
  | VList items => omap id items
  | VStr _ | VNone => []
  end.

(** [ast.iter_child_nodes]: every field in [_fields] order, a node field
    yields the node, a list field yields its items that are nodes. *)
Definition iter_child_nodes (n : node) : list node :=
  flat_map (λ kv, value_children kv.2) (node_fields n).

Fixpoint size (n : node) : nat :=
  match n with
  | Node _ fields =>
    S ((fix size_fields (l : list (string * value node)) : nat :=
          match l with
          | [] => 0
          | (_, v) :: l' =>
            (match v with
             | VNode c => size c
             | VList items =>
               (fix size_items (l : list (option node)) : nat :=
                  match l with
                  | [] => 0
                  | Some c :: l' => size c + size_items l'
                  | None :: l' => size_items l'
                  end) items
             | VStr _ | VNone => 0
             end) + size_fields l'
          end) fields)
  end%nat.

(** ** The validator *)

(** [UnsafeCodeError], one constructor per [raise] site. *)
Inductive UnsafeCodeError : Type :=
| InvalidSyntax (detail : string)
| CallNotAllowed (id : string)
| DunderAttribute
| CodeTooLong
| MissingRun.

(** [str(e)]: the message given at the [raise] site. *)
Definition str_error (e : UnsafeCodeError) : string :=
  match e with
  | InvalidSyntax detail => "Invalid Python syntax: " ++ detail
  | CallNotAllowed id => "Call to " ++ id ++ " not allowed."
  | DunderAttribute => "Access to dunder attributes not allowed."
  | CodeTooLong => "Code too long (max 10000 characters)."
  | MissingRun =>
      "You must define `async def run(interaction)` or `def run(interaction)`."
  end.

(** The validation errors of the design document. *)
Inductive ValidationError : Type :=
| Syntax | TooLarge | DisallowedConstruct | MissingEntryPoint.

Definition classify (e : UnsafeCodeError) : ValidationError :=
  match e with
  | InvalidSyntax _ => Syntax
  | CallNotAllowed _ | DunderAttribute => DisallowedConstruct
  | CodeTooLong => TooLarge
  | MissingRun => MissingEntryPoint
  end.

Definition deny_list : list string :=
  ["eval"; "exec"; "__import__"; "compile"; "execfile"].

(** The test at the head of [visit_Call]:
    [isinstance(node.func, ast.Name) and node.func.id in (...)]. *)
Definition visit_Call_check (fields : list (string * value node))
  : option UnsafeCodeError :=
  match get_field "func" fields with
  | Some (VNode (Node fcls ffields)) =>
      if String.eqb fcls "Name" then
        match get_field "id" ffields with
        | Some (VStr id) =>
            if bool_decide (id ∈ deny_list) then Some (CallNotAllowed id) else None
        | _ => None
        end
      else None
  | _ => None
  end.

(** The test at the head of [visit_Attribute]:
    [isinstance(node.attr, str) and node.attr.startswith("__")]. *)
Definition visit_Attribute_check (fields : list (string * value node))
  : option UnsafeCodeError :=
  match get_field "attr" fields with
  | Some (VStr attr) => if String.prefix "__" attr then Some DunderAttribute else None
  | _ => None
  end.

(** [NodeVisitor.visit] looks up the method ['visit_' + class name]; the
    validator defines two, every other class goes to [generic_visit]
    directly.  [node_check] is what the method does before it calls
    [generic_visit]. *)
Definition node_check (n : node) : option UnsafeCodeError :=
  if String.eqb (node_cls n) "Call" then visit_Call_check (node_fields n)
  else if String.eqb (node_cls n) "Attribute" then visit_Attribute_check (node_fields n)
  else None.

(** [SimpleASTValidator().visit(node)] on a stack that suffices for the
    tree ([visit_on_stack] below has the recursion limit): [Some e] when
    [e] is raised, [None] when the visit returns.  The two inner loops
    are [generic_visit]. *)
Fixpoint visit (n : node) : option UnsafeCodeError :=
  match node_check n with
  | Some e => Some e
  | None =>
    match n with
    | Node _ fields =>
      (fix generic_visit (l : list (string * value node)) : option UnsafeCodeError :=
         match l with
         | [] => None
         | (_, v) :: l' =>
           match
             match v with
             | VNode c => visit c
             | VList items =>
               (fix visit_items (l : list (option node)) : option UnsafeCodeError :=
                  match l with
                  | [] => None
                  | Some c :: l' =>
                      match visit c with
                      | Some e => Some e
                      | None => visit_items l'
                      end
                  | None :: l' => visit_items l'
                  end) items
             | VStr _ | VNone => None
             end
           with
           | Some e => Some e
           | None => generic_visit l'
           end
         end) fields
    end
  end.

(** [ast.walk]: a queue, [popleft], [extend] with the children, yield. *)
Equations? walk_queue (todo : list node) : list node
  by wf (sum_list_with size todo) lt :=
  walk_queue [] := [];
  walk_queue (n :: rest) := n :: walk_queue (rest ++ iter_child_nodes n).
Proof.
  clear walk_queue. rewrite sum_list_with_app. cbn [sum_list_with].
  enough (size n = S (sum_list_with size (iter_child_nodes n))) by lia.
  destruct n as [cls fields]. unfold iter_child_nodes. simpl. f_equal.
  induction fields as [|[k v] fields IH]; simpl; [done|].
  rewrite sum_list_with_app, <- IH. f_equal.
  destruct v as [c|items| |]; simpl; try lia.
  induction items as [|[c|] items IHi]; simpl; auto.
Qed.

Definition walk (n : node) : list node := walk_queue [n].

(** [isinstance(node, (ast.FunctionDef, ast.AsyncFunctionDef)) and
    node.name == "run"]. *)
Definition is_run_def (n : node) : bool :=
  (String.eqb (node_cls n) "FunctionDef" || String.eqb (node_cls n) "AsyncFunctionDef")
  && match get_field "name" (node_fields n) with
     | Some (VStr name) => String.eqb name "run"
     | _ => false
     end.

(** The [for node in ast.walk(tree)] loop with its [break]. *)
Fixpoint find_run (nodes : list node) : bool :=
  match nodes with
  | [] => false
  | n :: rest => if is_run_def n then true else find_run rest
  end.

(** ** The visit on the interpreter's stack

    [NodeVisitor.visit] recurses on the tree through Python calls
    ([visit], then [visit_Call] or [visit_Attribute], then
    [generic_visit], which calls [visit] on every child): the visit of a
    node nested deep enough exceeds the recursion limit of the
    interpreter and raises [RecursionError], which is not an
    [UnsafeCodeError].  Whether the limit is hit depends on the calls in
    progress, that is on the chain of nodes being visited, and on how
    the interpreter counts them; [overflows] is that test, on the chain
    given innermost node first.  The limit is hit on the way into the
    node, before the node raises [UnsafeCodeError] or hands its children
    to [visit]. *)
Inductive raised : Type :=
| Unsafe (e : UnsafeCodeError)
| RecursionError.

Fixpoint visit_on_stack (overflows : list node → bool) (above : list node) (n : node)
  : option raised :=
  if overflows (n :: above) then Some RecursionError else
  match node_check n with
  | Some e => Some (Unsafe e)
  | None =>
    match n with
    | Node _ fields =>
      (fix generic_visit (l : list (string * value node)) : option raised :=
         match l with
         | [] => None
         | (_, v) :: l' =>
           match
             match v with
             | VNode c => visit_on_stack overflows (n :: above) c
             | VList items =>
               (fix visit_items (l : list (option node)) : option raised :=
                  match l with
                  | [] => None
                  | Some c :: l' =>
                      match visit_on_stack overflows (n :: above) c with
                      | Some r => Some r
                      | None => visit_items l'
                      end
                  | None :: l' => visit_items l'
                  end) items
             | VStr _ | VNone => None
             end
           with
           | Some r => Some r
           | None => generic_visit l'
           end
         end) fields
    end
  end.

(** What the program takes from its libraries and its configuration. *)
Inductive exn_kind : Type :=
| TimeoutErrorK      (* asyncio.TimeoutError *)
| ExceptionK         (* any other subclass of Exception *)
| BaseExceptionK.    (* SystemExit, KeyboardInterrupt, CancelledError, ... *)

Record exn : Type := { exn_class : exn_kind; exn_str : string }.

(** ** Handlers and the interaction they answer *)

(** The part of a [discord.Interaction] the callback uses:
    [response.is_done()], the messages sent through
    [response.send_message], and whether the next [send_message] raises
    (a [discord.HTTPException], an [Exception]). *)
Record interaction : Type := {
  is_done : bool;
  sent : list string;
  send_raises : bool;
}.

(** What awaiting [run_func(interaction)] under [timeout=30] comes to:
    a result ([None] for a falsy one, [Some s] for a truthy one whose [str]
    is [s]), an exception, or no answer within the timeout. *)
Inductive run_outcome : Type :=
| Returns (result : option string)
| Raises (e : exn)
| Hangs.

(** A callable bound to [run]: the handler may itself answer the
    interaction before it ends. *)
Record run_func : Type := {
  iscoroutinefunction : bool;
  call : interaction → run_outcome * interaction;
}.

(** What [namespace.get("run")] is after [exec]. *)
Inductive run_binding : Type :=
| NotCallable
| Callable (f : run_func).

Inductive exec_outcome : Type :=
| ExecRaises (detail : string)       (* str(e) and the traceback *)
| ExecDone (run : option run_binding).

(** An [app_commands.Command] of the tree; its callback is the closure
    [callback] over [cmd_run]. *)
Record command : Type := {
  cmd_name : string;
  cmd_description : string;
  cmd_run : run_func;
}.

(** ** Documents and the remote store *)

(** An entry of a [dynamic_commands] map: the dict the program writes, or
    a bare source string (the [isinstance(data, dict)] tests). *)
Inductive cmd_data : Type :=
| CmdDict (code description : string)
| CmdStr (code : string).

Record bin_config : Type := { bin_id : string; master_key : string }.

(** A JSONBin record: the root record carries [guild_bin_configs], a
    guild's record carries [dynamic_commands]; other keys are kept as
    they are. *)
Record doc : Type := {
  guild_bin_configs : option (gmap string bin_config);
  dynamic_commands : option (gmap string cmd_data);
  other_keys : gmap string string;
}.

Definition empty_doc : doc :=
  {| guild_bin_configs := None; dynamic_commands := None; other_keys := ∅ |}.

(** What [resp.json()] gives: it raises, or it is an object whose
    ["record"] is absent/null or a document. *)
Inductive body : Type :=
| NotJson
| JsonObject (record : option doc).

Inductive response : Type :=
| ConnectionError
| Status (status : Z) (b : body).

Inductive event : Type :=
| EvGet (bin key : string)
| EvPut (bin key : string) (record : doc)
| EvSleep (seconds : Z)
| EvSync.

(** The exceptions of [CommandTree.add_command] for a slash command. *)
Inductive add_command_error : Type :=
| CommandAlreadyRegistered
| CommandLimitReached.

Record Env : Type := {
  dedent : string → string;                       (* textwrap.dedent *)
  ast_parse : string → string + node;             (* ast.parse: the exception or the tree *)
  recursion_limit_hit : list node → bool;         (* the recursion limit, for [visit_on_stack] *)
  exec_code : string → exec_outcome;              (* exec(source, globals_for_exec, namespace) *)
  add_command_error_str : add_command_error → string;
                                                  (* str(e) for an exception of add_command *)
  ROOT_BIN_ID : string;
  JSONBIN_MASTER_KEY : string;
}.

(** The module state ([dynamic_commands_cache], [guild_cache]), the
    guild commands of [bot.tree], the answers the remote store will give
    to the coming requests, and the requests and sleeps done so far. *)
Record World : Type := {
  dynamic_commands_cache : gmap string (gmap string cmd_data);
  guild_cache : gmap string doc;
  tree : gmap (string * string) command;
  net : list response;
  trace : list event;
}.

Definition M (A : Type) : Type := World → A * World.

Definition ret {A} (a : A) : M A := λ w, (a, w).
Definition bind {A B} (m : M A) (k : A → M B) : M B :=
  λ w, let (a, w') := m w in k a w'.

Notation "'let*' x ':=' m 'in' k" := (bind m (λ x, k))
  (at level 10, x name, m at level 100, k at level 200).
Notation "m ';;' k" := (bind m (λ _, k))
  (at level 100, k at level 200, right associativity).

Definition get_world : M World := λ w, (w, w).

Definition set_dynamic_commands_cache (c : gmap string (gmap string cmd_data)) : M unit :=
  λ w, (tt, {| dynamic_commands_cache := c; guild_cache := guild_cache w;
               tree := tree w; net := net w; trace := trace w |}).

Definition set_guild_cache (c : gmap string doc) : M unit :=
  λ w, (tt, {| dynamic_commands_cache := dynamic_commands_cache w; guild_cache := c;
               tree := tree w; net := net w; trace := trace w |}).

Definition set_tree (t : gmap (string * string) command) : M unit :=
  λ w, (tt, {| dynamic_commands_cache := dynamic_commands_cache w;
               guild_cache := guild_cache w;
               tree := t; net := net w; trace := trace w |}).

Definition emit (ev : event) : M unit :=
  λ w, (tt, {| dynamic_commands_cache := dynamic_commands_cache w;
               guild_cache := guild_cache w; tree := tree w;
               net := net w; trace := trace w ++ [ev] |}).

(** One HTTP request: it is recorded, and answered by the next answer
    of the script (a connection error once the script is exhausted). *)
Definition http_request (ev : event) : M response :=
  λ w, (default ConnectionError (head (net w)),
        {| dynamic_commands_cache := dynamic_commands_cache w;
           guild_cache := guild_cache w; tree := tree w;
           net := tail (net w); trace := trace w ++ [ev] |}).

Definition sleep (seconds : Z) : M unit := emit (EvSleep seconds).

(** ** JSONBin helpers *)

(** The [for attempt in range(3)] loop of [_jsonbin_get]; [None] when
    the loop runs out. *)
Fixpoint jsonbin_get_loop (attempts : nat) (bin key : string) : M (option doc) :=
  match attempts with
  | O => ret None
  | S k =>
      let* resp := http_request (EvGet bin key) in
      match resp with
      | Status status (JsonObject record) =>
          if Z.eqb status 200 then ret (Some (default empty_doc record))
          else (sleep 1 ;; jsonbin_get_loop k bin key)
      | _ => (sleep 1 ;; jsonbin_get_loop k bin key)
      end
  end.

Definition _jsonbin_get (bin key : string) : M doc :=
  let* r := jsonbin_get_loop 3 bin key in
  ret (default empty_doc r).

(** The loop of [_jsonbin_put]; [false] when it runs out. *)
Fixpoint jsonbin_put_loop (attempts : nat) (bin key : string) (record : doc) : M bool :=
  match attempts with
  | O => ret false
  | S k =>
      let* resp := http_request (EvPut bin key record) in
      match resp with
      | Status status _ =>
          if Z.eqb status 200 || Z.eqb status 201 then ret true
          else (sleep 1 ;; jsonbin_put_loop k bin key record)
      | ConnectionError => (sleep 1 ;; jsonbin_put_loop k bin key record)
      end
  end.

Definition _jsonbin_put (bin key : string) (record : doc) : M bool :=
  jsonbin_put_loop 3 bin key record.

Section Engine.
Context (E : Env).

Definition get_root_record : M doc :=
  _jsonbin_get (ROOT_BIN_ID E) (JSONBIN_MASTER_KEY E).

Definition get_guild_bin_config (guild_id : string) : M (option bin_config) :=
  let* record := get_root_record in
  ret (default ∅ (guild_bin_configs record) !! guild_id).

Definition load_guild_data (guild_id : string) : M doc :=
  let* w := get_world in
  match guild_cache w !! guild_id with
  | Some d => ret d
  | None =>
      let* config := get_guild_bin_config guild_id in
      match config with
      | None =>
          let* w := get_world in
          set_guild_cache (<[guild_id := empty_doc]> (guild_cache w)) ;;
          ret empty_doc
      | Some cfg =>
          let* data := _jsonbin_get (bin_id cfg) (master_key cfg) in
          let* w := get_world in
          set_guild_cache (<[guild_id := data]> (guild_cache w)) ;;
          ret data
      end
  end.

Definition save_guild_data (guild_id : string) (guild_data : doc) : M bool :=
  let* w := get_world in
  set_guild_cache (<[guild_id := guild_data]> (guild_cache w)) ;;
  let* config := get_guild_bin_config guild_id in
  match config with
  | None => ret false
  | Some cfg => _jsonbin_put (bin_id cfg) (master_key cfg) guild_data
  end.

(** [description or f"Dynamic command: {cmd_name}"]. *)
Definition description_or (description : option string) (cmd_name : string) : string :=
  match description with
  | Some d => if String.eqb d "" then "Dynamic command: " ++ cmd_name else d
  | None => "Dynamic command: " ++ cmd_name
  end.

(** [dynamic_commands_cache[guild_id][cmd_name] = data], after the
    [if guild_id not in dynamic_commands_cache] initialisation. *)
Definition cache_store (guild_id cmd_name : string) (data : cmd_data) : M unit :=
  let* w := get_world in
  set_dynamic_commands_cache
    (<[guild_id := <[cmd_name := data]> (default ∅ (dynamic_commands_cache w !! guild_id))]>
       (dynamic_commands_cache w)).

Definition save_dynamic_command (guild_id cmd_name code : string)
    (description : option string) : M bool :=
  let data := CmdDict code (description_or description cmd_name) in
  cache_store guild_id cmd_name data ;;
  let* guild_data := load_guild_data guild_id in
  let guild_data' :=
    {| guild_bin_configs := guild_bin_configs guild_data;
       dynamic_commands :=
         Some (<[cmd_name := data]> (default ∅ (dynamic_commands guild_data)));
       other_keys := other_keys guild_data |} in
  save_guild_data guild_id guild_data'.

Definition delete_dynamic_command_from_store (guild_id cmd_name : string) : M bool :=
  let* w := get_world in
  set_dynamic_commands_cache (alter (delete cmd_name) guild_id (dynamic_commands_cache w)) ;;
  let* guild_data := load_guild_data guild_id in
  match dynamic_commands guild_data with
  | Some cmds =>
      save_guild_data guild_id
        {| guild_bin_configs := guild_bin_configs guild_data;
           dynamic_commands := Some (delete cmd_name cmds);
           other_keys := other_keys guild_data |}
  | None => ret true
  end.

(** ** [validate_user_code]: [None] when it returns, [Some e] when it
    raises [e], on a stack that suffices for the visit of the tree. *)
Definition validate_user_code (code : string) : option UnsafeCodeError :=
  match ast_parse E (dedent E code) with
  | inl detail => Some (InvalidSyntax detail)
  | inr tree =>
      match visit tree with
      | Some e => Some e
      | None =>
          if Z.of_nat (String.length code) >? 10000 then Some CodeTooLong
          else if find_run (walk tree) then None
          else Some MissingRun
      end
  end.

(** [validate_user_code] on the interpreter's stack: [Some
    RecursionError] when the visit exceeds the recursion limit, an
    exception that [validate_user_code] neither catches nor turns into
    an [UnsafeCodeError].  [ast.walk] keeps its own queue and does not
    recurse. *)
Definition validate_on_stack (code : string) : option raised :=
  match ast_parse E (dedent E code) with
  | inl detail => Some (Unsafe (InvalidSyntax detail))
  | inr tree =>
      match visit_on_stack (recursion_limit_hit E) [] tree with
      | Some r => Some r
      | None =>
          if Z.of_nat (String.length code) >? 10000 then Some (Unsafe CodeTooLong)
          else if find_run (walk tree) then None
          else Some (Unsafe MissingRun)
      end
  end.

(** ** The registry *)

(** [bot.tree.get_command], [remove_command] and [add_command] on the
    commands of a guild.  The tree is keyed by the guild id: the guild of
    the interaction ([interaction.guild]) and the one that
    [register_dynamic_command] looks up in [bot.guilds] from the id are
    the same guild, the bot being a member of the guild in which an
    administrator runs a command. *)
Definition tree_get_command (guild_id cmd_name : string) : M (option command) :=
  let* w := get_world in ret (tree w !! (guild_id, cmd_name)).

Definition tree_remove_command (guild_id cmd_name : string) : M unit :=
  let* w := get_world in set_tree (delete (guild_id, cmd_name) (tree w)).

(** The number of commands the tree holds for a guild. *)
Definition guild_commands (t : gmap (string * string) command) (guild_id : string) : nat :=
  base.size (filter (λ kv : (string * string) * command, kv.1.1 = guild_id) t).

(** [add_command(cmd, guild=guild_obj)], with its default
    [override=False], checks before it adds: discord.py raises
    [CommandAlreadyRegistered] when the guild has a command of that name
    and [CommandLimitReached] when the guild has its 100 slash commands
    already. *)
Definition add_command_check (t : gmap (string * string) command)
    (guild_id cmd_name : string) : option add_command_error :=
  if decide (is_Some (t !! (guild_id, cmd_name))) then Some CommandAlreadyRegistered
  else if decide (100 ≤ guild_commands t guild_id)%nat then Some CommandLimitReached
  else None.

Definition tree_add_command (guild_id : string) (cmd : command)
  : M (option add_command_error) :=
  let* w := get_world in
  match add_command_check (tree w) guild_id (cmd_name cmd) with
  | Some e => ret (Some e)
  | None => set_tree (<[(guild_id, cmd_name cmd) := cmd]> (tree w)) ;; ret None
  end.

(** What [register_dynamic_command] returns.  It lets two exceptions
    through, which are no return: the [RecursionError] of a validation
    that hits the recursion limit ([validate_on_stack]), and the
    [ValueError] of [app_commands.Command] for a name that Discord does
    not accept; the definition is for a stack that suffices and a name
    that is accepted. *)
Definition register_dynamic_command (guild_id cmd_name code : string)
    (description : option string) : M (bool * option string) :=
  match validate_user_code code with
  | Some e => ret (false, Some (str_error e))
  | None =>
    match exec_code E (dedent E code) with
    | ExecRaises detail => ret (false, Some ("Execution error: " ++ detail))
    | ExecDone (Some (Callable run)) =>
        let* existing := tree_get_command guild_id cmd_name in
        (if existing is Some _ then tree_remove_command guild_id cmd_name else ret tt) ;;
        let desc := String.substring 0 100 (description_or description cmd_name) in
        let cmd := {| cmd_name := cmd_name; cmd_description := desc; cmd_run := run |} in
        let* refused := tree_add_command guild_id cmd in
        match refused with
        | Some e =>
            ret (false, Some ("Failed to add command: " ++ add_command_error_str E e))
        | None =>
            cache_store guild_id cmd_name (CmdDict code desc) ;;
            ret (true, None)
        end
    | ExecDone _ =>
        ret (false, Some "No callable run(interaction) function found in code.")
    end
  end.

Definition sync_all_guild_commands : M unit := emit EvSync.

(** What a slash command answers to the administrator. *)
Inductive reply : Type :=
| AdminOnly
| NotFound (name : string)
| StorageFailed
| Deleted (name : string)
| RegistrationFailed (error : option string)
| Renamed (old_name new_name : string).

Definition delete_command (admin : bool) (guild_id command_name : string) : M reply :=
  if negb admin then ret AdminOnly else
  let* existing := tree_get_command guild_id command_name in
  (if existing is Some _ then tree_remove_command guild_id command_name else ret tt) ;;
  let* ok := delete_dynamic_command_from_store guild_id command_name in
  if negb ok then ret StorageFailed else
  sync_all_guild_commands ;;
  ret (Deleted command_name).

Definition rename_command (admin : bool) (guild_id old_name new_name : string) : M reply :=
  if negb admin then ret AdminOnly else
  let* w := get_world in
  match dynamic_commands_cache w !! guild_id ≫= (.!! old_name) with
  | None => ret (NotFound old_name)
  | Some cmd_data =>
      let code := match cmd_data with CmdDict c _ => c | CmdStr c => c end in
      let desc := match cmd_data with
                  | CmdDict _ d => d
                  | CmdStr _ => "Dynamic command: " ++ new_name
                  end in
      let* existing := tree_get_command guild_id old_name in
      (if existing is Some _ then tree_remove_command guild_id old_name else ret tt) ;;
      delete_dynamic_command_from_store guild_id old_name ;;
      let* r := register_dynamic_command guild_id new_name code (Some desc) in
      if negb r.1 then ret (RegistrationFailed r.2) else
      save_dynamic_command guild_id new_name code (Some desc) ;;
      sync_all_guild_commands ;;
      ret (Renamed old_name new_name)
  end.

End Engine.

(** ** Invocation *)

Definition HTTPException : exn :=
  {| exn_class := ExceptionK; exn_str := "HTTPException" |}.

Definition TimeoutError : exn :=
  {| exn_class := TimeoutErrorK; exn_str := "" |}.

(** [await interaction.response.send_message(msg, ephemeral=True)]. *)
Definition send_message (i : interaction) (msg : string) : exn + interaction :=
  if send_raises i then inl HTTPException
  else inr {| is_done := true; sent := sent i ++ [msg]; send_raises := send_raises i |}.

(** How [callback] ends. *)
Inductive callback_end : Type :=
| Returned
| Propagated (e : exn).

(** The [try] block of [callback]: the handler under its timeout, then
    the reply with a truthy result.  A coroutine function is awaited
    under [asyncio.wait_for], any other callable goes through
    [run_blocking]; both have the 30 second timeout and give the
    callback the result or the exception of the handler, so [call]
    stands for either. *)
Definition callback_try (run : run_func) (i : interaction) : (exn + unit) * interaction :=
  let (o, i1) := call run i in
  match o with
  | Returns (Some s) =>
      if is_done i1 then (inr tt, i1)
      else match send_message i1 s with
           | inl e => (inl e, i1)
           | inr i2 => (inr tt, i2)
           end
  | Returns None => (inr tt, i1)
  | Raises e => (inl e, i1)
  | Hangs => (inl TimeoutError, i1)
  end.

Definition callback (run : run_func) (i : interaction) : callback_end * interaction :=
  match callback_try run i with
  | (inr _, i') => (Returned, i')
  | (inl e, i') =>
      match exn_class e with
      | TimeoutErrorK =>
          if is_done i' then (Returned, i')
          else match send_message i' "⏱️ Command timed out." with
               | inl e' => (Propagated e', i')
               | inr i'' => (Returned, i'')
               end
      | ExceptionK =>
          if is_done i' then (Returned, i')
          else match send_message i' ("❌ Error: " ++ exn_str e) with
               | inl e' =>
                   match exn_class e' with
                   | BaseExceptionK => (Propagated e', i')
                   | _ => (Returned, i')
                   end
               | inr i'' => (Returned, i'')
               end
      | BaseExceptionK => (Propagated e, i')
      end
  end.

(** The platform dispatches an invocation of [cmd_name] in [guild_id] to
    the callback registered in the tree. *)
Definition invoke (guild_id cmd_name : string) (i : interaction)
  : M (option (callback_end * interaction)) :=
  let* w := get_world in
  ret (match tree w !! (guild_id, cmd_name) with
       | Some cmd => Some (callback (cmd_run cmd) i)
       | None => None
       end).

(** ** Syntax trees of sample sources

    The node classes used below, with their [_fields] in the order of
    the [ast] module. *)

Definition Load : node := Node "Load" [].
Definition Store : node := Node "Store" [].
Definition Name (id : string) (ctx : node) : node :=
  Node "Name" [("id", VStr id); ("ctx", VNode ctx)].
Definition Constant (v : string) : node :=
  Node "Constant" [("value", VStr v); ("kind", VNone)].
Definition Attribute (v : node) (attr : string) (ctx : node) : node :=
  Node "Attribute" [("value", VNode v); ("attr", VStr attr); ("ctx", VNode ctx)].
Definition Call (func : node) (args keywords : list node) : node :=
  Node "Call" [("func", VNode func); ("args", VList (Some <$> args));
               ("keywords", VList (Some <$> keywords))].
Definition Expr (v : node) : node := Node "Expr" [("value", VNode v)].
Definition Return (v : node) : node := Node "Return" [("value", VNode v)].
Definition Pass : node := Node "Pass" [].
Definition Assign (targets : list node) (v : node) : node :=
  Node "Assign" [("targets", VList (Some <$> targets)); ("value", VNode v);
                 ("type_comment", VNone)].
Definition alias (name : string) : node :=
  Node "alias" [("name", VStr name); ("asname", VNone)].
Definition Import (names : list node) : node :=
  Node "Import" [("names", VList (Some <$> names))].
Definition arg (name : string) : node :=
  Node "arg" [("arg", VStr name); ("annotation", VNone); ("type_comment", VNone)].
Definition arguments (args : list node) : node :=
  Node "arguments" [("posonlyargs", VList []); ("args", VList (Some <$> args));
                    ("vararg", VNone); ("kwonlyargs", VList []);
                    ("kw_defaults", VList []); ("kwarg", VNone);
                    ("defaults", VList [])].
Definition FunctionDef (name : string) (args : node) (body : list node) : node :=
  Node "FunctionDef" [("name", VStr name); ("args", VNode args);
                      ("body", VList (Some <$> body)); ("decorator_list", VList []);
                      ("returns", VNone); ("type_comment", VNone)].
Definition AsyncFunctionDef (name : string) (args : node) (body : list node) : node :=
  Node "AsyncFunctionDef" [("name", VStr name); ("args", VNode args);
                           ("body", VList (Some <$> body)); ("decorator_list", VList []);
                           ("returns", VNone); ("type_comment", VNone)].
Definition ClassDef (name : string) (body : list node) : node :=
  Node "ClassDef" [("name", VStr name); ("bases", VList []); ("keywords", VList []);
                   ("body", VList (Some <$> body)); ("decorator_list", VList [])].
Definition PyModule (body : list node) : node :=
  Node "Module" [("body", VList (Some <$> body)); ("type_ignores", VList [])].
Definition Add : node := Node "Add" [].
Definition BinOp (left op right : node) : node :=
  Node "BinOp" [("left", VNode left); ("op", VNode op); ("right", VNode right)].
Definition If (test : node) (body orelse : list node) : node :=
  Node "If" [("test", VNode test); ("body", VList (Some <$> body));
             ("orelse", VList (Some <$> orelse))].
Definition Raise (exc : node) : node := Node "Raise" [("exc", VNode exc); ("cause", VNone)].

Definition nl : string := String (Ascii.ascii_of_nat 10) "".

Fixpoint padding (n : nat) : string :=
  match n with
  | O => ""
  | S k => "x" ++ padding k
  end.

(** A trailing comment line of 10001 characters. *)
Definition long_comment : string := nl ++ "#" ++ padding (Z.to_nat 10000).

(** [async def run(ctx): return 'pong'] *)
Definition src_pong : string := "async def run(ctx): return 'pong'".
Definition tree_pong : node :=
  PyModule [AsyncFunctionDef "run" (arguments [arg "ctx"]) [Return (Constant "pong")]].

(** [async def run(ctx):\n    eval('1+1')] *)
Definition src_eval : string := "async def run(ctx):" ++ nl ++ "    eval('1+1')".
Definition tree_eval : node :=
  PyModule [AsyncFunctionDef "run" (arguments [arg "ctx"])
              [Expr (Call (Name "eval" Load) [Constant "1+1"] [])]].

(** The two sources above followed by the long comment: same trees. *)
Definition src_pong_long : string := src_pong ++ long_comment.
Definition src_eval_long : string := src_eval ++ long_comment.

(** [class K:\n    def run(self, extra):\n        pass] *)
Definition src_nested : string :=
  "class K:" ++ nl ++ "    def run(self, extra):" ++ nl ++ "        pass".
Definition tree_nested : node :=
  PyModule [ClassDef "K" [FunctionDef "run" (arguments [arg "self"; arg "extra"]) [Pass]]].

(** [def run(a, b):\n    pass\ndef run(a, b):\n    pass] *)
Definition src_twice : string :=
  "def run(a, b):" ++ nl ++ "    pass" ++ nl ++ "def run(a, b):" ++ nl ++ "    pass".
Definition tree_twice : node :=
  PyModule [FunctionDef "run" (arguments [arg "a"; arg "b"]) [Pass];
            FunctionDef "run" (arguments [arg "a"; arg "b"]) [Pass]].

(** [x = 1] *)
Definition src_no_run : string := "x = 1".
Definition tree_no_run : node := PyModule [Assign [Name "x" Store] (Constant "1")].

(** [def run(ctx):\n    ctx.__class__\n    eval('1')] *)
Definition src_dunder_eval : string :=
  "def run(ctx):" ++ nl ++ "    ctx.__class__" ++ nl ++ "    eval('1')".
Definition tree_dunder_eval : node :=
  PyModule [FunctionDef "run" (arguments [arg "ctx"])
              [Expr (Attribute (Name "ctx" Load) "__class__" Load);
               Expr (Call (Name "eval" Load) [Constant "1"] [])]].

(** [def run(ctx):\n    exec('a')\n    eval('b')] *)
Definition src_exec_eval : string :=
  "def run(ctx):" ++ nl ++ "    exec('a')" ++ nl ++ "    eval('b')".
Definition tree_exec_eval : node :=
  PyModule [FunctionDef "run" (arguments [arg "ctx"])
              [Expr (Call (Name "exec" Load) [Constant "a"] []);
               Expr (Call (Name "eval" Load) [Constant "b"] [])]].

(** [e = eval\ndef run(ctx):\n    return e('1+1')] *)
Definition src_alias : string :=
  "e = eval" ++ nl ++ "def run(ctx):" ++ nl ++ "    return e('1+1')".
Definition tree_alias : node :=
  PyModule [Assign [Name "e" Store] (Name "eval" Load);
            FunctionDef "run" (arguments [arg "ctx"])
              [Return (Call (Name "e" Load) [Constant "1+1"] [])]].

(** [import builtins\ndef run(ctx):\n    return builtins.eval('1+1')] *)
Definition src_attr : string :=
  "import builtins" ++ nl ++ "def run(ctx):" ++ nl ++ "    return builtins.eval('1+1')".
Definition tree_attr : node :=
  PyModule [Import [alias "builtins"];
            FunctionDef "run" (arguments [arg "ctx"])
              [Return (Call (Attribute (Name "builtins" Load) "eval" Load)
                         [Constant "1+1"] [])]].

(** [def run(i):\n    return 1+1+...+1+eval('x')], with 600 terms [1]: a
    source of 1232 characters whose sum nests 600 deep on the left. *)
Fixpoint ones (k : nat) : string :=
  match k with
  | O => "1"
  | S k' => ones k' ++ "+1"
  end.
Fixpoint sum_of_ones (k : nat) : node :=
  match k with
  | O => Constant "1"
  | S k' => BinOp (sum_of_ones k') Add (Constant "1")
  end.
Definition src_deep : string :=
  "def run(i):" ++ nl ++ "    return " ++ ones 599 ++ "+eval('x')".
Definition deep_call : node := Call (Name "eval" Load) [Constant "x"] [].
Definition deep_sum : node := BinOp (sum_of_ones 599) Add deep_call.
Definition tree_deep : node :=
  PyModule [FunctionDef "run" (arguments [arg "i"]) [Return deep_sum]].

(** [if hasattr(bot, 'loaded'):\n    raise RuntimeError('loaded twice')\n
    bot.loaded = True\nasync def run(ctx): return 'pong']: a source
    whose module-level code raises when it is executed a second time. *)
Definition src_once : string :=
  "if hasattr(bot, 'loaded'):" ++ nl ++ "    raise RuntimeError('loaded twice')" ++ nl
  ++ "bot.loaded = True" ++ nl ++ "async def run(ctx): return 'pong'".
Definition tree_once : node :=
  PyModule [If (Call (Name "hasattr" Load) [Name "bot" Load; Constant "loaded"] [])
               [Raise (Call (Name "RuntimeError" Load) [Constant "loaded twice"] [])] [];
            Assign [Attribute (Name "bot" Load) "loaded" Store] (Constant "True");
            AsyncFunctionDef "run" (arguments [arg "ctx"]) [Return (Constant "pong")]].

Definition sample_sources : list (string * node) :=
  [(src_pong, tree_pong); (src_eval, tree_eval);
   (src_pong_long, tree_pong); (src_eval_long, tree_eval);
   (src_nested, tree_nested); (src_twice, tree_twice); (src_no_run, tree_no_run);
   (src_dunder_eval, tree_dunder_eval); (src_exec_eval, tree_exec_eval);
   (src_alias, tree_alias); (src_attr, tree_attr);
   (src_deep, tree_deep); (src_once, tree_once)].

Fixpoint assoc {A} (k : string) (l : list (string * A)) : option A :=
  match l with
  | [] => None
  | (k', a) :: rest => if String.eqb k' k then Some a else assoc k rest
  end.

(** [ast.parse] on the sample sources. *)
Definition sample_parse (s : string) : string + node :=
  match assoc s sample_sources with
  | Some t => inr t
  | None => inl "not a sample source"
  end.

(** The coroutine function [run] that [src_pong] defines. *)
Definition pong_run : run_func :=
  {| iscoroutinefunction := true; call := λ i, (Returns (Some "pong"), i) |}.

(** A blocking [run] that raises [SystemExit], and one that raises a
    [ValueError]. *)
Definition exit_run : run_func :=
  {| iscoroutinefunction := false;
     call := λ i, (Raises {| exn_class := BaseExceptionK; exn_str := "SystemExit" |}, i) |}.
Definition failing_run : run_func :=
  {| iscoroutinefunction := false;
     call := λ i, (Raises {| exn_class := ExceptionK; exn_str := "boom" |}, i) |}.

(** [exec] on the sample sources; for [src_once], in a process that has
    not executed it yet. *)
Definition sample_exec (s : string) : exec_outcome :=
  if String.eqb s src_pong then ExecDone (Some (Callable pong_run))
  else if String.eqb s src_once then ExecDone (Some (Callable pong_run))
  else if String.eqb s src_nested then ExecDone None
  else ExecRaises "not a sample source".

(** [exec] in a process that has executed [src_once] before. *)
Definition exec_again (s : string) : exec_outcome :=
  if String.eqb s src_once then ExecRaises "loaded twice" else sample_exec s.

(** The recursion limit as CPython 3.11 counts it.  A visit in progress
    holds the frames of [visit] and [generic_visit], and one more
    between them for [visit_Call], [visit_Attribute] and the
    [visit_Constant] of [NodeVisitor]; the innermost node needs one
    frame more, for the generator [iter_fields] or for the call that
    builds its [UnsafeCodeError].  The limit is hit when the chain needs
    more than the [frames] left at the call of [visit]. *)
Definition frames_held (n : node) : nat :=
  if String.eqb (node_cls n) "Call" || String.eqb (node_cls n) "Attribute"
     || String.eqb (node_cls n) "Constant"
  then 3%nat else 2%nat.

Definition frames_needed (chain : list node) : nat :=
  match chain with
  | [] => 0%nat
  | n :: above =>
      (sum_list_with frames_held above
       + (if node_check n is Some _ then 3 else frames_held n + 1))%nat
  end.

Definition cpython_stack (frames : nat) (chain : list node) : bool :=
  (frames <? frames_needed chain)%nat.

Definition sample_add_command_error_str (e : add_command_error) : string :=
  match e with
  | CommandAlreadyRegistered => "CommandAlreadyRegistered"
  | CommandLimitReached => "CommandLimitReached"
  end.

(** The sample sources have a line without indentation and no blank
    line: [textwrap.dedent] leaves them as they are.  The stack is the
    whole of CPython's default limit of 1000 frames, more than the
    validator ever has left. *)
Definition sample_env : Env :=
  {| dedent := λ s, s; ast_parse := sample_parse;
     recursion_limit_hit := cpython_stack 1000;
     exec_code := sample_exec;
     add_command_error_str := sample_add_command_error_str;
     ROOT_BIN_ID := "root-bin"; JSONBIN_MASTER_KEY := "root-key" |}.

(** The same libraries in a process that has executed [src_once]. *)
Definition env_second_exec : Env :=
  {| dedent := dedent sample_env; ast_parse := ast_parse sample_env;
     recursion_limit_hit := recursion_limit_hit sample_env;
     exec_code := exec_again;
     add_command_error_str := add_command_error_str sample_env;
     ROOT_BIN_ID := ROOT_BIN_ID sample_env;
     JSONBIN_MASTER_KEY := JSONBIN_MASTER_KEY sample_env |}.

Definition ping_data : cmd_data := CmdDict src_pong "pings".
Definition ping_command : command :=
  {| cmd_name := "ping"; cmd_description := "pings"; cmd_run := pong_run |}.
Definition ping_doc : doc :=
  {| guild_bin_configs := None; dynamic_commands := Some {[ "ping" := ping_data ]};
     other_keys := ∅ |}.

(** Guild [T1] with the command [ping] registered, cached and in the
    tree; a remote store that is down. *)
Definition world_ping : World :=
  {| dynamic_commands_cache := {[ "T1" := {[ "ping" := ping_data ]} ]};
     guild_cache := {[ "T1" := ping_doc ]};
     tree := {[ ("T1", "ping") := ping_command ]};
     net := []; trace := [] |}.

(** Guild [T1] after [once] was registered from [src_once]: in the
    in-memory map, in the cached document and in the tree. *)
Definition once_data : cmd_data := CmdDict src_once "pings once".
Definition once_command : command :=
  {| cmd_name := "once"; cmd_description := "pings once"; cmd_run := pong_run |}.
Definition world_once : World :=
  {| dynamic_commands_cache := {[ "T1" := {[ "once" := once_data ]} ]};
     guild_cache := {[ "T1" := {| guild_bin_configs := None;
                                  dynamic_commands := Some {[ "once" := once_data ]};
                                  other_keys := ∅ |} ]};
     tree := {[ ("T1", "once") := once_command ]};
     net := []; trace := [] |}.

(** Guild [T1] after a start of the bot that found [calc], with the
    source [src_eval], in the store: [load_all_from_bin] put it in the
    in-memory map and in the document cache, and its registration by
    [on_ready] failed, so that it is not in the tree. *)
Definition calc_data : cmd_data := CmdDict src_eval "calculator".
Definition world_stored : World :=
  {| dynamic_commands_cache := {[ "T1" := {[ "calc" := calc_data ]} ]};
     guild_cache := {[ "T1" := {| guild_bin_configs := None;
                                  dynamic_commands := Some {[ "calc" := calc_data ]};
                                  other_keys := ∅ |} ]};
     tree := ∅; net := []; trace := [] |}.


(** Nothing loaded, nothing registered, remote store down. *)
Definition world_empty : World :=
  {| dynamic_commands_cache := ∅; guild_cache := ∅; tree := ∅; net := []; trace := [] |}.

Definition root_doc : doc :=
  {| guild_bin_configs := Some {[ "T1" := {| bin_id := "bin-T1"; master_key := "key-T1" |} ]};
     dynamic_commands := None; other_keys := ∅ |}.

(** The root record is served at once, then the store fails. *)
Definition world_config_then_down : World :=
  {| dynamic_commands_cache := ∅; guild_cache := ∅; tree := ∅;
     net := [Status 200 (JsonObject (Some root_doc))]; trace := [] |}.

(** Guild [T1] with two commands whose handlers raise. *)
Definition world_handlers : World :=
  {| dynamic_commands_cache := ∅; guild_cache := ∅;
     tree := {[ ("T1", "boom") :=
                  {| cmd_name := "boom"; cmd_description := "raises ValueError";
                     cmd_run := failing_run |};
                ("T1", "quit") :=
                  {| cmd_name := "quit"; cmd_description := "raises SystemExit";
                     cmd_run := exit_run |} ]};
     net := []; trace := [] |}.

Definition fresh_interaction : interaction :=
  {| is_done := false; sent := []; send_raises := false |}.

(** ** Notions used to state the properties *)

(** [visit] on a list of nodes, in order: the first exception wins. *)
Fixpoint visit_all (l : list node) : option UnsafeCodeError :=
  match l with
  | [] => None
  | c :: l' => match visit c with Some e => Some e | None => visit_all l' end
  end.

(** [visit_on_stack] on a list of nodes, in order. *)
Fixpoint visit_all_on_stack (overflows : list node → bool) (above : list node)
    (l : list node) : option raised :=
  match l with
  | [] => None
  | c :: l' =>
      match visit_on_stack overflows above c with
      | Some r => Some r
      | None => visit_all_on_stack overflows above l'
      end
  end.

(** The chains of visits in progress that the visit of a tree goes
    through, one for each node: the node, its parent, and so on up to
    the root, then the chain [above] the tree. *)
Fixpoint chains (above : list node) (n : node) : list (list node) :=
  (n :: above) ::
  match n with
  | Node _ fields =>
    (fix fields_loop (l : list (string * value node)) : list (list node) :=
       match l with
       | [] => []
       | (_, v) :: l' =>
         ((match v with
           | VNode c => chains (n :: above) c
           | VList items =>
             (fix items_loop (l : list (option node)) : list (list node) :=
                match l with
                | [] => []
                | Some c :: l' => (chains (n :: above) c ++ items_loop l')%list
                | None :: l' => items_loop l'
                end) items
           | VStr _ | VNone => []
           end) ++ fields_loop l')%list
       end) fields
  end.

(** The stack suffices for the visit of the tree: the recursion limit
    is hit at none of its nodes. *)
Definition stack_suffices (overflows : list node → bool) (above : list node) (n : node)
  : bool :=
  forallb (λ chain, negb (overflows chain)) (chains above n).

(** [subnode d n]: the node [d] occurs in the tree [n]. *)
Inductive subnode : node → node → Prop :=
| subnode_refl n : subnode n n
| subnode_child d c n : c ∈ iter_child_nodes n → subnode d c → subnode d n.

(** A call expression whose callee is the bare name [p] of the deny-list. *)
Definition denied_call (d : node) (p : string) : Prop :=
  node_cls d = "Call" ∧
  ∃ ffields, get_field "func" (node_fields d) = Some (VNode (Node "Name" ffields)) ∧
             get_field "id" ffields = Some (VStr p) ∧ p ∈ deny_list.

(** An attribute access whose attribute name starts with two underscores. *)
Definition dunder_access (d : node) : Prop :=
  node_cls d = "Attribute" ∧
  ∃ attr, get_field "attr" (node_fields d) = Some (VStr attr) ∧
          String.prefix "__" attr = true.

(** The entry point as the design document words it: among the
    statements of the module, exactly one function definition named
    [run], and it takes exactly one parameter. *)
Definition list_field (name : string) (n : node) : list node :=
  match get_field name (node_fields n) with
  | Some (VList items) => omap id items
  | _ => []
  end.

Definition node_field (name : string) (n : node) : list node :=
  match get_field name (node_fields n) with
  | Some (VNode c) => [c]
  | _ => []
  end.

Definition param_count (f : node) : nat :=
  match get_field "args" (node_fields f) with
  | Some (VNode a) =>
      (length (list_field "posonlyargs" a) + length (list_field "args" a)
       + length (node_field "vararg" a) + length (list_field "kwonlyargs" a)
       + length (node_field "kwarg" a))%nat
  | _ => 0%nat
  end.

Definition top_level_runs (tree : node) : list node :=
  filter (λ d, is_run_def d = true) (list_field "body" tree).

Definition spec_entry_point (tree : node) : bool :=
  match top_level_runs tree with
  | [f] => Nat.eqb (param_count f) 1
  | _ => false
  end.

(** A GET is lost when the request fails, the status is not 200 or the
    body is not a JSON object; a PUT when the request fails or the
    status is neither 200 nor 201. *)
Definition get_fails (r : response) : bool :=
  match r with
  | Status status (JsonObject _) => negb (Z.eqb status 200)
  | _ => true
  end.

Definition put_fails (r : response) : bool :=
  match r with
  | Status status _ => negb (Z.eqb status 200 || Z.eqb status 201)
  | ConnectionError => true
  end.

(** The next [k] answers of the store all fail. *)
Fixpoint next_fail (fails : response → bool) (k : nat) (l : list response) : bool :=
  match k with
  | O => true
  | S k' => fails (default ConnectionError (head l)) && next_fail fails k' (tail l)
  end.

(** [k] attempts, each followed by the one-second sleep. *)
Fixpoint attempts (k : nat) (ev : event) : list event :=
  match k with
  | O => []
  | S k' => ev :: EvSleep 1 :: attempts k' ev
  end.

Definition with_store (w : World) (n : list response) (t : list event) : World :=
  {| dynamic_commands_cache := dynamic_commands_cache w; guild_cache := guild_cache w;
     tree := tree w; net := n; trace := t |}.

Definition with_guild_cache (w : World) (c : gmap string doc) : World :=
  {| dynamic_commands_cache := dynamic_commands_cache w; guild_cache := c;
     tree := tree w; net := net w; trace := trace w |}.

(** The entry of [cmd_name] in the in-memory map of [guild_id]. *)
Definition cached (w : World) (guild_id cmd_name : string) : option cmd_data :=
  dynamic_commands_cache w !! guild_id ≫= (.!! cmd_name).

(** The request and sleep primitives leave the module state and the
    tree alone. *)
Definition store_only (w w' : World) : Prop :=
  dynamic_commands_cache w' = dynamic_commands_cache w ∧
  guild_cache w' = guild_cache w ∧
  tree w' = tree w.

(** The persistence helpers only touch [guild_cache] and the store. *)
Definition registry_kept (w w' : World) : Prop :=
  dynamic_commands_cache w' = dynamic_commands_cache w ∧ tree w' = tree w.

Definition with_tree (w : World) (t : gmap (string * string) command) : World :=
  {| dynamic_commands_cache := dynamic_commands_cache w; guild_cache := guild_cache w;
     tree := t; net := net w; trace := trace w |}.

(** [if bot.tree.get_command(name, guild=...): bot.tree.remove_command(...)]. *)
Definition without_command (w : World) (guild_id cmd_name : string) : World :=
  match tree w !! (guild_id, cmd_name) with
  | Some _ => with_tree w (delete (guild_id, cmd_name) (tree w))
  | None => w
  end.

(** ** Further commands of app.py *)

(** A dict is falsy exactly when it has no key. *)
Definition doc_truthy (d : doc) : bool :=
  match guild_bin_configs d, dynamic_commands d with
  | None, None => negb (bool_decide (other_keys d = ∅))
  | _, _ => true
  end.

(** [guild_data[key] = value] and [guild_data.pop(key, None)] for a key
    other than [guild_bin_configs] and [dynamic_commands]. *)
Definition set_key (d : doc) (key value : string) : doc :=
  {| guild_bin_configs := guild_bin_configs d; dynamic_commands := dynamic_commands d;
     other_keys := <[key := value]> (other_keys d) |}.

Definition pop_key (d : doc) (key : string) : doc :=
  {| guild_bin_configs := guild_bin_configs d; dynamic_commands := dynamic_commands d;
     other_keys := delete key (other_keys d) |}.

(** [s.endswith(suffix)]. *)
Fixpoint endswith (s suffix : string) : bool :=
  String.eqb s suffix ||
  match s with
  | EmptyString => false
  | String _ rest => endswith rest suffix
  end.

(** The part of [s] before its last dot, if it has one. *)
Fixpoint before_last_dot (s : string) : option string :=
  match s with
  | EmptyString => None
  | String c rest =>
      match before_last_dot rest with
      | Some p => Some (String c p)
      | None => if String.eqb (String c "") "." then Some "" else None
      end
  end.

(** [s.rsplit(".", 1)[0]]. *)
Definition rsplit_dot_head (s : string) : string := default s (before_last_dot s).

Inductive setup_reply : Type :=
| OwnerOnly
| InvalidCredentials (status : Z)
| ConnectFailed
| SaveConfigFailed
| Configured.

Inductive settings_reply : Type :=
| SettingsAdminOnly
| SettingsUpdated.

Inductive description_reply : Type :=
| DescAdminOnly
| DescNotFound (name : string)
| DescRegistrationFailed (error : option string)
| DescriptionUpdated (name : string).

Inductive create_reply : Type :=
| CreateAdminOnly
| NeedsSetup
| NotPyFile
| GenerationFailed (detail : string)
| CommandError (error : option string)
| CreatedNotSaved
| Created (name : string)
| CreateError.

Section MoreCommands.
Context (E : Env).

Definition save_root_record (record : doc) : M bool :=
  _jsonbin_put (ROOT_BIN_ID E) (JSONBIN_MASTER_KEY E) record.

Definition save_guild_bin_config (guild_id bin master : string) : M bool :=
  let* record := get_root_record E in
  save_root_record
    {| guild_bin_configs :=
         Some (<[guild_id := {| bin_id := bin; master_key := master |}]>
                 (default ∅ (guild_bin_configs record)));
       dynamic_commands := dynamic_commands record;
       other_keys := other_keys record |}.

(** [/setup_jsonbin]: one test request on the bin (not retried), then
    the configuration is saved in the root record and the guild starts
    from an empty document. *)
Definition setup_jsonbin (owner : bool) (guild_id bin master : string) : M setup_reply :=
  if negb owner then ret OwnerOnly else
  let* resp := http_request (EvGet bin master) in
  match resp with
  | ConnectionError => ret ConnectFailed
  | Status status _ =>
      if negb (Z.eqb status 200) then ret (InvalidCredentials status) else
      let* ok := save_guild_bin_config guild_id bin master in
      if negb ok then ret SaveConfigFailed else
      let* w := get_world in
      set_guild_cache (<[guild_id := empty_doc]> (guild_cache w)) ;;
      save_guild_data E guild_id empty_doc ;;
      ret Configured
  end.

(** [guild_cache.get(gid) or await load_guild_data(gid)]. *)
Definition cached_or_load (gid : string) : M doc :=
  let* w := get_world in
  match guild_cache w !! gid with
  | Some d => if doc_truthy d then ret d else load_guild_data E gid
  | None => load_guild_data E gid
  end.

(** The body shared by [/join], [/leave], [/join_message],
    [/leave_message] and [/role_assign_on_join], and the one shared by
    [/unjoin], [/unleave] and [/unroleassignonjoin]. *)
Definition set_setting (admin : bool) (gid key value : string) : M settings_reply :=
  if negb admin then ret SettingsAdminOnly else
  let* guild_data := cached_or_load gid in
  save_guild_data E gid (set_key guild_data key value) ;;
  ret SettingsUpdated.

Definition pop_setting (admin : bool) (gid key : string) : M settings_reply :=
  if negb admin then ret SettingsAdminOnly else
  let* guild_data := cached_or_load gid in
  save_guild_data E gid (pop_key guild_data key) ;;
  ret SettingsUpdated.

(** [channel] and [role] stand for [str(channel.id)] and [str(role.id)]. *)
Definition cmd_join (admin : bool) (gid channel : string) : M settings_reply :=
  set_setting admin gid "join_channel" channel.
Definition cmd_unjoin (admin : bool) (gid : string) : M settings_reply :=
  pop_setting admin gid "join_channel".
Definition cmd_leave (admin : bool) (gid channel : string) : M settings_reply :=
  set_setting admin gid "leave_channel" channel.
Definition cmd_unleave (admin : bool) (gid : string) : M settings_reply :=
  pop_setting admin gid "leave_channel".
Definition cmd_join_message (admin : bool) (gid message : string) : M settings_reply :=
  set_setting admin gid "join_message" message.
Definition cmd_leave_message (admin : bool) (gid message : string) : M settings_reply :=
  set_setting admin gid "leave_message" message.
Definition cmd_role_assign (admin : bool) (gid role : string) : M settings_reply :=
  set_setting admin gid "auto_role" role.
Definition cmd_unroleassign (admin : bool) (gid : string) : M settings_reply :=
  pop_setting admin gid "auto_role".

Definition rename_command_description (admin : bool)
    (guild_id command_name new_description : string) : M description_reply :=
  if negb admin then ret DescAdminOnly else
  let* w := get_world in
  match dynamic_commands_cache w !! guild_id ≫= (.!! command_name) with
  | None => ret (DescNotFound command_name)
  | Some cmd_data =>
      let code := match cmd_data with CmdDict c _ => c | CmdStr c => c end in
      let* existing := tree_get_command guild_id command_name in
      (if existing is Some _ then tree_remove_command guild_id command_name else ret tt) ;;
      let* r := register_dynamic_command E guild_id command_name code
                  (Some new_description) in
      if negb r.1 then ret (DescRegistrationFailed r.2) else
      save_dynamic_command E guild_id command_name code (Some new_description) ;;
      sync_all_guild_commands ;;
      ret (DescriptionUpdated command_name)
  end.

(** [not s] for an optional string. *)
Definition str_falsy (s : option string) : bool :=
  match s with
  | Some s => String.eqb s ""
  | None => true
  end.

(** [/describe_command], given what [ai_generate_code] returned for the
    description: the name, the code and the description or error text. *)
Definition describe_command (admin : bool) (guild_id : string)
    (generated : option string * option string * string) : M create_reply :=
  if negb admin then ret CreateAdminOnly else
  let* config := get_guild_bin_config E guild_id in
  match config with
  | None => ret NeedsSetup
  | Some _ =>
      let '(cmd_name, code, cmd_desc) := generated in
      if str_falsy cmd_name || str_falsy code then ret (GenerationFailed cmd_desc) else
      let cmd_name := default "" cmd_name in
      let code := default "" code in
      let* r := register_dynamic_command E guild_id cmd_name code (Some cmd_desc) in
      if negb r.1 then ret (CommandError r.2) else
      let* saved := save_dynamic_command E guild_id cmd_name code (Some cmd_desc) in
      if negb saved then ret CreatedNotSaved else
      sync_all_guild_commands ;;
      ret (Created cmd_name)
  end.

(** [/create_command], given the name of the uploaded file and its
    content decoded as UTF-8 ([None] when reading or decoding raises);
    [lower] is [str.lower]. *)
Definition create_command (lower : string → string) (admin : bool)
    (guild_id filename : string) (content : option string) : M create_reply :=
  if negb admin then ret CreateAdminOnly else
  let* config := get_guild_bin_config E guild_id in
  match config with
  | None => ret NeedsSetup
  | Some _ =>
      if negb (endswith filename ".py") then ret NotPyFile else
      match content with
      | None => ret CreateError
      | Some code =>
          let cmd_name := lower (rsplit_dot_head filename) in
          let* r := register_dynamic_command E guild_id cmd_name code None in
          if negb r.1 then ret (CommandError r.2) else
          let* saved := save_dynamic_command E guild_id cmd_name code None in
          if negb saved then ret CreatedNotSaved else
          sync_all_guild_commands ;;
          ret (Created cmd_name)
      end
  end.

End MoreCommands.

(** The commands that set a key of the guild document, each with its
    key, and the commands that remove one, each with the command that
    sets the same key. *)
Definition setting_commands (E : Env)
    : list ((bool → string → string → M settings_reply) * string) :=
  [ (cmd_join E, "join_channel"); (cmd_leave E, "leave_channel");
    (cmd_join_message E, "join_message"); (cmd_leave_message E, "leave_message");
    (cmd_role_assign E, "auto_role") ].

Definition unsetting_commands (E : Env)
    : list ((bool → string → M settings_reply) *
            (bool → string → string → M settings_reply) * string) :=
  [ (cmd_unjoin E, cmd_join E, "join_channel");
    (cmd_unleave E, cmd_leave E, "leave_channel");
    (cmd_unroleassign E, cmd_role_assign E, "auto_role") ].

(** ** The web endpoint *)

(** The scalar values of the JSON body. *)
Inductive json_value : Type :=
| JNull
| JBool (b : bool)
| JInt (z : Z)
| JStr (s : string).

(** [str(v)] and the truth value of [v]. *)
Definition py_str (v : json_value) : string :=
  match v with
  | JNull => "None"
  | JBool true => "True"
  | JBool false => "False"
  | JInt z => pretty z
  | JStr s => s
  end.

Definition py_truthy (v : json_value) : bool :=
  match v with
  | JNull => false
  | JBool b => b
  | JInt z => negb (Z.eqb z 0)
  | JStr s => negb (String.eqb s "")
  end.

Inductive endpoint_body : Type :=
| ErrorBody (error : string)
| ResultBody (cmd_name code : option string) (desc : string).

(** [describe_command_endpoint], on the JSON object of the request and
    what [ai_generate_code] returns for the description. *)
Definition describe_command_endpoint
    (ai_generate_code : json_value → option string * option string * string)
    (data : gmap string json_value) : Z * endpoint_body :=
  let guild_id := py_str (default JNull (data !! "guild_id")) in
  let description := default JNull (data !! "description") in
  if String.eqb guild_id "" || negb (py_truthy description) then
    (400, ErrorBody "guild_id and description are required")
  else
    let '(name, code, desc) := ai_generate_code description in
    (200, ResultBody name code desc).

(** ** Orders of traversal *)

(** The nodes of a tree in the order [NodeVisitor.generic_visit] reaches
    them: a node, then the nodes of its fields, field by field. *)
Fixpoint preorder (n : node) : list node :=
  n :: match n with
       | Node _ fields =>
         (fix fields_loop (l : list (string * value node)) : list node :=
            match l with
            | [] => []
            | (_, v) :: l' =>
              ((match v with
                | VNode c => preorder c
                | VList items =>
                  (fix items_loop (l : list (option node)) : list node :=
                     match l with
                     | [] => []
                     | Some c :: l' => (preorder c ++ items_loop l')%list
                     | None :: l' => items_loop l'
                     end) items
                | VStr _ | VNone => []
                end) ++ fields_loop l')%list
            end) fields
       end.

(** The exception of the first node of the list that the validator
    refuses. *)
Fixpoint first_refused (l : list node) : option UnsafeCodeError :=
  match l with
  | [] => None
  | d :: l' => match node_check d with Some e => Some e | None => first_refused l' end
  end.

(** The source of an entry of the in-memory map, as the rename commands
    read it. *)
Definition entry_code (data : cmd_data) : string :=
  match data with CmdDict c _ => c | CmdStr c => c end.

(** The description [rename_command] takes from the entry of the old
    name. *)
Definition entry_description (data : cmd_data) (new_name : string) : string :=
  match data with
  | CmdDict _ d => d
  | CmdStr _ => "Dynamic command: " ++ new_name
  end.

(** The description a command is registered with in the tree. *)
Definition tree_description (description : option string) (cmd_name : string) : string :=
  String.substring 0 100 (description_or description cmd_name).

(** The number of HTTP requests in a trace. *)
Fixpoint count_requests (t : list event) : nat :=
  match t with
  | [] => 0
  | EvGet _ _ :: t' | EvPut _ _ _ :: t' => S (count_requests t')
  | _ :: t' => count_requests t'
  end.

(** * Properties *)

(** ** Syntax trees *)

Lemma size_children n : size n = S (sum_list_with size (iter_child_nodes n)).
Proof.
  destruct n as [cls fields]. unfold iter_child_nodes. simpl. f_equal.
  induction fields as [|[k v] fields IH]; simpl; [done|].
  rewrite sum_list_with_app, <- IH. f_equal.
  destruct v as [c|items| |]; simpl; try lia.
  induction items as [|[c|] items IHi]; simpl; auto.
Qed.

Lemma node_children_ind (P : node → Prop) :
  (∀ n, (∀ c, c ∈ iter_child_nodes n → P c) → P n) → ∀ n, P n.
Proof.
  intros step n. remember (size n) as k eqn:Hk.
  revert n Hk. induction (lt_wf k) as [k _ IH]. intros n ->.
  apply step. intros c Hc. apply (IH (size c)); [|done].
  rewrite (size_children n).
  pose proof (sum_list_with_in c size _ Hc). lia.
Qed.

Lemma visit_unfold n :
  visit n = match node_check n with
            | Some e => Some e
            | None => visit_all (iter_child_nodes n)
            end.
Proof.
  destruct n as [cls fields]. unfold iter_child_nodes.
  cbn [visit node_fields]. destruct (node_check (Node cls fields)); [done|].
  induction fields as [|[k v] fields IH]; [done|].
  assert (∀ l l', visit_all (l ++ l') =
            match visit_all l with Some e => Some e | None => visit_all l' end) as Happ.
  { clear. induction l as [|c l IH]; intros l'; simpl; [done|].
    destruct (visit c); [done|]. apply IH. }
  cbn [flat_map]. rewrite Happ, <- IH. clear Happ IH.
  destruct v as [c|items| |]; simpl; try done.
  - destruct (visit c); done.
  - match goal with |- match ?a with _ => _ end = match ?b with _ => _ end =>
      assert (a = b) as ->; [|done] end.
    induction items as [|[c|] items IHi]; simpl; [done| |done].
    destruct (visit c); done.
Qed.

Lemma visit_all_none l : visit_all l = None ↔ ∀ c, c ∈ l → visit c = None.
Proof.
  induction l as [|c l IH]; simpl.
  - split; [|done]. intros _ c Hc. by apply elem_of_nil in Hc.
  - destruct (visit c) eqn:Hv.
    + split; [done|]. intros H. specialize (H c (list_elem_of_here _ _)). congruence.
    + rewrite IH. split.
      * intros H c' Hc'. apply elem_of_cons in Hc' as [->|Hc']; auto.
      * intros H c' Hc'. apply H. by apply list_elem_of_further.
Qed.

Lemma visit_all_some l e : visit_all l = Some e → ∃ c, c ∈ l ∧ visit c = Some e.
Proof.
  induction l as [|c l IH]; simpl; [done|].
  destruct (visit c) eqn:Hv.
  - intros [= ->]. exists c. split; [apply list_elem_of_here|done].
  - intros H. destruct (IH H) as (c' & Hc' & Hv').
    exists c'. split; [by apply list_elem_of_further|done].
Qed.

Lemma subnode_trans a b c : subnode a b → subnode b c → subnode a c.
Proof.
  intros Hab Hbc. induction Hbc as [|d c' n Hc _ IH]; [done|].
  eapply subnode_child; eauto.
Qed.

(** The visit returns exactly when no node of the tree is refused. *)
Lemma visit_none_iff n : visit n = None ↔ ∀ d, subnode d n → node_check d = None.
Proof.
  induction n as [n IH] using node_children_ind.
  rewrite visit_unfold. split.
  - destruct (node_check n) eqn:Hn; [done|]. intros Hall d Hd.
    inversion Hd as [|d' c n' Hc Hdc]; subst; [done|].
    rewrite visit_all_none in Hall. apply (IH c Hc); auto.
  - intros H. rewrite (H n (subnode_refl n)).
    apply visit_all_none. intros c Hc. apply (IH c Hc).
    intros d Hd. apply H. by eapply subnode_child.
Qed.

(** An exception of the visit is the one some node of the tree raises. *)
Lemma visit_some n e : visit n = Some e → ∃ d, subnode d n ∧ node_check d = Some e.
Proof.
  induction n as [n IH] using node_children_ind.
  rewrite visit_unfold. destruct (node_check n) eqn:Hn.
  - intros [= ->]. exists n. split; [constructor|done].
  - intros H. apply visit_all_some in H as (c & Hc & Hv).
    destruct (IH c Hc Hv) as (d & Hd & Hchk).
    exists d. split; [by eapply subnode_child|done].
Qed.

Lemma node_check_call d id :
  node_check d = Some (CallNotAllowed id) ↔ denied_call d id.
Proof.
  unfold node_check, denied_call, visit_Call_check, visit_Attribute_check.
  destruct (String.eqb_spec (node_cls d) "Call") as [Hc|Hc].
  - split.
    + intros H. split; [done|].
      destruct (get_field "func" (node_fields d)) as [[[fcls ffields]| | |]|]; try done.
      destruct (String.eqb_spec fcls "Name") as [->|]; [|done].
      destruct (get_field "id" ffields) as [[| |s|]|] eqn:Hid; try done.
      case_bool_decide; [|done]. injection H as ->. eauto.
    + intros (_ & ffields & -> & Hid & Hin). simpl. rewrite Hid.
      by rewrite bool_decide_eq_true_2.
  - split.
    + destruct (String.eqb (node_cls d) "Attribute"); [|done].
      destruct (get_field "attr" (node_fields d)) as [[| |s|]|]; try done.
      by destruct (String.prefix "__" s).
    + by intros [? _].
Qed.

Lemma node_check_dunder d : node_check d = Some DunderAttribute ↔ dunder_access d.
Proof.
  unfold node_check, dunder_access, visit_Call_check, visit_Attribute_check.
  destruct (String.eqb_spec (node_cls d) "Call") as [Hc|Hc].
  - split.
    + destruct (get_field "func" (node_fields d)) as [[[fcls ffields]| | |]|]; try done.
      destruct (String.eqb fcls "Name"); [|done].
      destruct (get_field "id" ffields) as [[| |s|]|]; try done.
      by case_bool_decide.
    + intros [Ha _]. rewrite Hc in Ha. done.
  - destruct (String.eqb_spec (node_cls d) "Attribute") as [Ha|Ha].
    + split.
      * intros H. split; [done|].
        destruct (get_field "attr" (node_fields d)) as [[| |s|]|] eqn:Hattr; try done.
        destruct (String.prefix "__" s) eqn:Hp; [|done]. eauto.
      * intros (_ & attr & -> & ->). done.
    + split; [done|]. by intros [? _].
Qed.

(** The validator raises nothing else during the visit. *)
Lemma node_check_cases d e :
  node_check d = Some e →
  (∃ id, e = CallNotAllowed id ∧ denied_call d id) ∨ (e = DunderAttribute ∧ dunder_access d).
Proof.
  intros H. destruct e as [s|id| | |].
  - exfalso. revert H. unfold node_check, visit_Call_check, visit_Attribute_check.
    repeat (case_match; try done).
  - left. exists id. split; [done|]. by apply node_check_call.
  - right. split; [done|]. by apply node_check_dunder.
  - exfalso. revert H. unfold node_check, visit_Call_check, visit_Attribute_check.
    repeat (case_match; try done).
  - exfalso. revert H. unfold node_check, visit_Call_check, visit_Attribute_check.
    repeat (case_match; try done).
Qed.

(** ** [ast.walk] yields the nodes of the tree *)

Lemma walk_queue_incl todo n : n ∈ todo → n ∈ walk_queue todo.
Proof.
  revert n. funelim (walk_queue todo); simp walk_queue; intros m Hin;
    [by apply elem_of_nil in Hin .. |].
  apply elem_of_cons in Hin as [->|Hin]; [apply list_elem_of_here|].
  apply list_elem_of_further.
  match goal with IH : ∀ _, _ → _ ∈ walk_queue _ |- _ => apply IH end.
  apply elem_of_app. by left.
Qed.

Lemma walk_queue_children todo n c :
  n ∈ walk_queue todo → c ∈ iter_child_nodes n → c ∈ walk_queue todo.
Proof.
  revert n c. funelim (walk_queue todo); simp walk_queue; intros m c Hin Hc;
    [by apply elem_of_nil in Hin .. |].
  apply list_elem_of_further.
  apply elem_of_cons in Hin as [->|Hin].
  - apply walk_queue_incl. apply elem_of_app. by right.
  - match goal with IH : ∀ _ _, _ ∈ walk_queue _ → _ |- _ => by eapply IH end.
Qed.

Lemma walk_queue_sound todo d : d ∈ walk_queue todo → ∃ n, n ∈ todo ∧ subnode d n.
Proof.
  revert d. funelim (walk_queue todo); simp walk_queue; intros d Hin;
    [by apply elem_of_nil in Hin .. |].
  apply elem_of_cons in Hin as [->|Hin].
  - exists n. split; [apply list_elem_of_here|constructor].
  - match goal with IH : ∀ _, _ ∈ walk_queue _ → _ |- _ =>
      destruct (IH _ Hin) as (m & Hm & Hsub) end.
    apply elem_of_app in Hm as [Hm|Hm].
    + exists m. split; [by apply list_elem_of_further|done].
    + exists n. split; [apply list_elem_of_here|by eapply subnode_child].
Qed.

Lemma elem_of_walk tree d : d ∈ walk tree ↔ subnode d tree.
Proof.
  unfold walk. split.
  - intros H. apply walk_queue_sound in H as (n & Hn & Hsub).
    apply list_elem_of_singleton in Hn as ->. done.
  - intros H. induction H as [n|d c n Hc Hsub IH].
    + apply walk_queue_incl, list_elem_of_here.
    + assert (∀ x, subnode x c → c ∈ walk_queue [n] → x ∈ walk_queue [n]) as Hclosed.
      { clear. intros x Hx. induction Hx as [|x c' m Hc' _ IHx]; [done|].
        intros Hm. apply IHx. by eapply walk_queue_children. }
      apply (Hclosed d Hsub). eapply walk_queue_children; [|done].
      apply walk_queue_incl, list_elem_of_here.
Qed.

Lemma find_run_true l : find_run l = true ↔ ∃ d, d ∈ l ∧ is_run_def d = true.
Proof.
  induction l as [|n l IH]; simpl.
  - split; [done|]. by intros (d & ?%elem_of_nil & _).
  - destruct (is_run_def n) eqn:Hn.
    + split; [|done]. intros _. exists n. split; [apply list_elem_of_here|done].
    + rewrite IH. split.
      * intros (d & Hd & Hr). exists d. split; [by apply list_elem_of_further|done].
      * intros (d & Hd & Hr). apply elem_of_cons in Hd as [->|Hd]; [congruence|eauto].
Qed.

(** The loop of [validate_user_code] finds a definition of [run]
    exactly when one occurs somewhere in the tree. *)
Lemma find_run_walk tree :
  find_run (walk tree) = true ↔ ∃ d, subnode d tree ∧ is_run_def d = true.
Proof.
  rewrite find_run_true. split; intros (d & Hd & Hr); exists d;
    (split; [by apply elem_of_walk|done]).
Qed.

(** ** The validator *)

Lemma validate_parsed E code tree :
  ast_parse E (dedent E code) = inr tree →
  validate_user_code E code =
    match visit tree with
    | Some e => Some e
    | None =>
        if Z.of_nat (String.length code) >? 10000 then Some CodeTooLong
        else if find_run (walk tree) then None else Some MissingRun
    end.
Proof. intros H. unfold validate_user_code. by rewrite H. Qed.

Lemma visit_raises_disallowed tree e :
  visit tree = Some e →
  (∃ id d, e = CallNotAllowed id ∧ subnode d tree ∧ denied_call d id) ∨
  (e = DunderAttribute ∧ ∃ d, subnode d tree ∧ dunder_access d).
Proof.
  intros H. apply visit_some in H as (d & Hd & Hchk).
  apply node_check_cases in Hchk as [(id & -> & Hcall)|[-> Hdun]]; [left|right]; eauto.
Qed.

Lemma list_field_children name n c : c ∈ list_field name n → c ∈ iter_child_nodes n.
Proof.
  unfold list_field, iter_child_nodes.
  induction (node_fields n) as [|[k v] fields IH]; simpl.
  - by intros ?%elem_of_nil.
  - destruct (String.eqb k name).
    + destruct v as [|items| |]; try (by intros ?%elem_of_nil).
      intros Hc. apply elem_of_app. by left.
    + intros Hc. apply elem_of_app. right. by apply IH.
Qed.

Ltac elem_of_concrete :=
  vm_compute; repeat first [apply list_elem_of_here | apply list_elem_of_further].

(** C3, as amended.  The entry-point test of [validate_user_code] is a
    search of the whole tree: the validator reports the missing entry
    point exactly when the source parses, passes the visit and the size
    test, and no definition named [run] ([def] or [async def]) occurs
    anywhere in the tree; it admits the source exactly when, under the
    same conditions, one occurs somewhere, nested or not, whatever its
    parameters and however many there are.  The shape the design
    document asks for (one top-level [run] with one parameter) is thus
    enough to pass the test, without being required. *)
Theorem missing_entry_point_iff_no_run_anywhere E code :
  (validate_user_code E code = Some MissingRun ↔
     ∃ tree, ast_parse E (dedent E code) = inr tree ∧ visit tree = None ∧
             (Z.of_nat (String.length code) ≤ 10000)%Z ∧
             ∀ d, subnode d tree → is_run_def d = false) ∧
  (validate_user_code E code = None ↔
     ∃ tree, ast_parse E (dedent E code) = inr tree ∧ visit tree = None ∧
             (Z.of_nat (String.length code) ≤ 10000)%Z ∧
             ∃ d, subnode d tree ∧ is_run_def d = true) ∧
  (∀ tree, ast_parse E (dedent E code) = inr tree →
           spec_entry_point tree = true →
           validate_user_code E code ≠ Some MissingRun).
Proof.
  destruct (ast_parse E (dedent E code)) as [detail|tree] eqn:Hparse.
  { unfold validate_user_code. rewrite Hparse.
    repeat split; try done; by intros (? & ? & _). }
  rewrite (validate_parsed _ _ _ Hparse).
  assert (find_run (walk tree) = false ↔ ∀ d, subnode d tree → is_run_def d = false)
    as Hnone.
  { split.
    - intros Hf d Hd. destruct (is_run_def d) eqn:Hr; [|done].
      assert (find_run (walk tree) = true) by (apply find_run_walk; eauto). congruence.
    - intros Hall. destruct (find_run (walk tree)) eqn:Hf; [|done].
      apply find_run_walk in Hf as (d & Hd & Hr). rewrite (Hall d Hd) in Hr. done. }
  split; [|split].
  - split.
    + destruct (visit tree) eqn:Hv.
      { intros [= ->]. apply visit_raises_disallowed in Hv as [(? & ? & ? & _)|[? _]]; done. }
      destruct (Z.gtb_spec (Z.of_nat (String.length code)) 10000); [done|].
      destruct (find_run (walk tree)) eqn:Hf; [done|]. intros _.
      exists tree. split; [done|]. split; [done|]. split; [lia|]. by apply Hnone.
    + intros (tree' & [= <-] & -> & Hlen & Hall).
      destruct (Z.gtb_spec (Z.of_nat (String.length code)) 10000); [lia|].
      apply Hnone in Hall. by rewrite Hall.
  - split.
    + destruct (visit tree) eqn:Hv; [done|].
      destruct (Z.gtb_spec (Z.of_nat (String.length code)) 10000); [done|].
      destruct (find_run (walk tree)) eqn:Hf; [|done]. intros _.
      exists tree. split; [done|]. split; [done|]. split; [lia|]. by apply find_run_walk.
    + intros (tree' & [= <-] & -> & Hlen & Hex).
      destruct (Z.gtb_spec (Z.of_nat (String.length code)) 10000); [lia|].
      apply find_run_walk in Hex. by rewrite Hex.
  - intros tree' [= <-] Hspec.
    destruct (visit tree) eqn:Hv.
    { intros [= ->]. apply visit_raises_disallowed in Hv as [(? & ? & ? & _)|[? _]]; done. }
    destruct (Z.of_nat (String.length code) >? 10000); [done|].
    assert (find_run (walk tree) = true) as ->; [|done].
    apply find_run_walk. unfold spec_entry_point in Hspec.
    destruct (top_level_runs tree) as [|f [|]] eqn:Htop; try done.
    assert (f ∈ top_level_runs tree) as Hf by (rewrite Htop; apply list_elem_of_here).
    apply list_elem_of_filter in Hf as [Hrun Hbody].
    exists f. split; [|done].
    eapply subnode_child; [by eapply list_field_children|constructor].
Qed.

(** C3, the claim as stated fails: the only [run] of [src_nested] is a
    method of a class and takes two parameters, and the validator
    admits the source. *)
Lemma nested_two_parameter_run_is_admitted :
  ast_parse sample_env (dedent sample_env src_nested) = inr tree_nested ∧
  ¬ (validate_user_code sample_env src_nested = None ↔
     spec_entry_point tree_nested = true).
Proof.
  split; [vm_compute; reflexivity|]. intros [H _].
  assert (validate_user_code sample_env src_nested = None) as Hv
    by (vm_compute; reflexivity).
  apply H in Hv. vm_compute in Hv. discriminate.
Qed.

(** C4, as amended.  The visit of the tree comes before the size test:
    a source that parses and passes the visit is reported too long as
    soon as it has more than 10000 characters, and a source that the
    visit refuses is reported with the exception of the visit, whatever
    its length. *)
Theorem too_long_reported_after_visit E code tree :
  ast_parse E (dedent E code) = inr tree →
  (visit tree = None → (Z.of_nat (String.length code) > 10000)%Z →
   validate_user_code E code = Some CodeTooLong) ∧
  (∀ e, visit tree = Some e → validate_user_code E code = Some e).
Proof.
  intros Hparse. rewrite (validate_parsed _ _ _ Hparse). split.
  - intros -> Hlen. destruct (Z.gtb_spec (Z.of_nat (String.length code)) 10000); [done|lia].
  - by intros e ->.
Qed.

Lemma too_long_reported_after_visit_witness :
  validate_user_code sample_env src_pong_long = Some CodeTooLong.
Proof.
  refine (proj1 (too_long_reported_after_visit sample_env src_pong_long tree_pong _) _ _);
    vm_compute; reflexivity.
Defined.

(** C4, the claim as stated fails: [src_eval_long] parses and has 10035
    characters, and is reported for its call to [eval], not for its size. *)
Lemma oversized_source_with_eval_is_not_too_large :
  ast_parse sample_env (dedent sample_env src_eval_long) = inr tree_eval ∧
  (Z.of_nat (String.length src_eval_long) > 10000)%Z ∧
  validate_user_code sample_env src_eval_long ≠ Some CodeTooLong.
Proof.
  split; [vm_compute; reflexivity|]. split; [vm_compute; reflexivity|].
  assert (validate_user_code sample_env src_eval_long = Some (CallNotAllowed "eval")) as ->
    by (vm_compute; reflexivity).
  discriminate.
Qed.

(** ** The validator on the interpreter's stack *)

Lemma visit_on_stack_unfold overflows above n :
  visit_on_stack overflows above n =
    if overflows (n :: above) then Some RecursionError else
    match node_check n with
    | Some e => Some (Unsafe e)
    | None => visit_all_on_stack overflows (n :: above) (iter_child_nodes n)
    end.
Proof.
  destruct n as [cls fields]. unfold iter_child_nodes.
  cbn [visit_on_stack node_fields].
  destruct (overflows (Node cls fields :: above)); [done|].
  destruct (node_check (Node cls fields)); [done|].
  generalize (Node cls fields :: above). intros chain.
  induction fields as [|[k v] fields IH]; [done|].
  assert (∀ l l', visit_all_on_stack overflows chain (l ++ l') =
            match visit_all_on_stack overflows chain l with
            | Some r => Some r
            | None => visit_all_on_stack overflows chain l'
            end) as Happ.
  { clear. induction l as [|c l IH]; intros l'; simpl; [done|].
    destruct (visit_on_stack overflows chain c); [done|]. apply IH. }
  cbn [flat_map]. rewrite Happ, <- IH. clear Happ IH.
  destruct v as [c|items| |]; simpl; try done.
  - destruct (visit_on_stack overflows chain c); done.
  - match goal with |- match ?a with _ => _ end = match ?b with _ => _ end =>
      assert (a = b) as ->; [|done] end.
    induction items as [|[c|] items IHi]; simpl; [done| |done].
    destruct (visit_on_stack overflows chain c); done.
Qed.

Lemma chains_unfold above n :
  chains above n = (n :: above) :: flat_map (chains (n :: above)) (iter_child_nodes n).
Proof.
  destruct n as [cls fields]. unfold iter_child_nodes. cbn [chains node_fields].
  f_equal. generalize (Node cls fields :: above). intros chain.
  induction fields as [|[k v] fields IH]; [done|].
  cbn [flat_map]. rewrite flat_map_app, <- IH. f_equal.
  destruct v as [c|items| |]; simpl; try done.
  - by rewrite app_nil_r.
  - induction items as [|[c|] items IHi]; simpl; [done| |done]. by rewrite IHi.
Qed.

(** Whatever the stack, the visit raises [RecursionError] or does what
    it does on a stack that suffices. *)
Lemma visit_on_stack_cases overflows above n :
  visit_on_stack overflows above n = Some RecursionError ∨
  visit_on_stack overflows above n = Unsafe <$> visit n.
Proof.
  revert above. induction n as [n IH] using node_children_ind. intros above.
  rewrite visit_on_stack_unfold, visit_unfold.
  destruct (overflows (n :: above)); [by left|].
  destruct (node_check n); [by right|].
  generalize (n :: above). intros chain.
  induction (iter_child_nodes n) as [|c l IHl]; [by right|].
  cbn [visit_all_on_stack visit_all].
  destruct (IH c (list_elem_of_here _ _) chain) as [->| ->]; [by left|].
  destruct (visit c); [by right|]. cbn [fmap option_fmap option_map].
  apply IHl. intros c' Hc'. apply IH. by apply list_elem_of_further.
Qed.

Lemma visit_on_stack_suffices overflows above n :
  stack_suffices overflows above n = true →
  visit_on_stack overflows above n = Unsafe <$> visit n.
Proof.
  unfold stack_suffices.
  revert above. induction n as [n IH] using node_children_ind. intros above.
  rewrite chains_unfold, visit_on_stack_unfold, visit_unfold. cbn [forallb].
  intros [Hn Hrest]%andb_true_iff. apply negb_true_iff in Hn. rewrite Hn.
  destruct (node_check n); [done|].
  revert Hrest. generalize (n :: above). intros chain.
  induction (iter_child_nodes n) as [|c l IHl]; [done|].
  cbn [flat_map visit_all_on_stack visit_all]. rewrite forallb_app.
  intros [Hc Hl]%andb_true_iff.
  rewrite (IH c (list_elem_of_here _ _) chain Hc).
  destruct (visit c); [done|]. cbn [fmap option_fmap option_map].
  apply IHl; [|done]. intros c' Hc'. apply IH. by apply list_elem_of_further.
Qed.

(** A smaller stack overflows where a larger one does. *)
Lemma visit_on_stack_mono overflows overflows' above n :
  (∀ chain, overflows chain = true → overflows' chain = true) →
  visit_on_stack overflows above n = Some RecursionError →
  visit_on_stack overflows' above n = Some RecursionError.
Proof.
  intros Hmono. revert above. induction n as [n IH] using node_children_ind. intros above.
  rewrite !visit_on_stack_unfold.
  destruct (overflows (n :: above)) eqn:Ho; [by rewrite (Hmono _ Ho)|].
  destruct (overflows' (n :: above)); [done|].
  destruct (node_check n); [done|].
  generalize (n :: above). intros chain.
  induction (iter_child_nodes n) as [|c l IHl]; [done|].
  cbn [visit_all_on_stack].
  destruct (visit_on_stack overflows chain c) as [r|] eqn:Hc.
  - intros [= ->]. by rewrite (IH c (list_elem_of_here _ _) chain Hc).
  - intros Hl.
    destruct (visit_on_stack_cases overflows chain c) as [Hr|Hv]; [congruence|].
    destruct (visit_on_stack_cases overflows' chain c) as [->| ->]; [done|].
    rewrite Hc in Hv. destruct (visit c); [done|]. cbn [fmap option_fmap option_map].
    apply IHl; [|done]. intros c' Hc'. apply IH. by apply list_elem_of_further.
Qed.

Lemma validate_on_stack_parsed E code tree :
  ast_parse E (dedent E code) = inr tree →
  validate_on_stack E code =
    match visit_on_stack (recursion_limit_hit E) [] tree with
    | Some r => Some r
    | None =>
        if Z.of_nat (String.length code) >? 10000 then Some (Unsafe CodeTooLong)
        else if find_run (walk tree) then None else Some (Unsafe MissingRun)
    end.
Proof. intros H. unfold validate_on_stack. by rewrite H. Qed.

(** [validate_user_code] is the validation on a stack that suffices;
    on any stack, the validation raises [RecursionError] or does what
    [validate_user_code] does. *)
Lemma validate_on_stack_cases E code :
  validate_on_stack E code = Some RecursionError ∨
  validate_on_stack E code = Unsafe <$> validate_user_code E code.
Proof.
  unfold validate_on_stack, validate_user_code.
  destruct (ast_parse E (dedent E code)) as [detail|tree]; [by right|].
  destruct (visit_on_stack_cases (recursion_limit_hit E) [] tree) as [->| ->]; [by left|].
  right. destruct (visit tree); [done|]. cbn [fmap option_fmap option_map].
  destruct (Z.of_nat (String.length code) >? 10000); [done|].
  by destruct (find_run (walk tree)).
Qed.

Lemma validate_on_stack_suffices E code tree :
  ast_parse E (dedent E code) = inr tree →
  stack_suffices (recursion_limit_hit E) [] tree = true →
  validate_on_stack E code = Unsafe <$> validate_user_code E code.
Proof.
  intros Hparse Hfits. unfold validate_on_stack, validate_user_code. rewrite Hparse.
  rewrite (visit_on_stack_suffices _ _ _ Hfits).
  destruct (visit tree); [done|]. cbn [fmap option_fmap option_map].
  destruct (Z.of_nat (String.length code) >? 10000); [done|].
  by destruct (find_run (walk tree)).
Qed.

(** C6, as amended.  A source that parses and contains a call whose
    callee is a bare name of the deny-list is never admitted.  Its
    validation raises [RecursionError], when the visit hits the
    recursion limit of the interpreter before it reaches a node it
    refuses, or rejects the source with a disallowed-construct error,
    the one raised by a node of its tree: a call to a deny-listed name,
    which the error names, or an access to a dunder attribute.  The
    error names the primitive [p] when the source has no dunder
    attribute access and calls no other deny-listed name.  On a stack
    that suffices for the tree the source is rejected. *)
Theorem denied_call_is_rejected E code tree d p :
  ast_parse E (dedent E code) = inr tree →
  subnode d tree →
  denied_call d p →
  (validate_on_stack E code = Some RecursionError ∨
   ∃ e, validate_on_stack E code = Some (Unsafe e) ∧
        classify e = DisallowedConstruct ∧
        ((∃ q d', e = CallNotAllowed q ∧ subnode d' tree ∧ denied_call d' q) ∨
         (e = DunderAttribute ∧ ∃ d', subnode d' tree ∧ dunder_access d')) ∧
        ((∀ d', subnode d' tree → ¬ dunder_access d') →
         (∀ d' q, subnode d' tree → denied_call d' q → q = p) →
         e = CallNotAllowed p)) ∧
  (stack_suffices (recursion_limit_hit E) [] tree = true →
   validate_on_stack E code ≠ Some RecursionError).
Proof.
  intros Hparse Hd Hcall.
  assert (∃ e, validate_user_code E code = Some e ∧
       classify e = DisallowedConstruct ∧
       ((∃ q d', e = CallNotAllowed q ∧ subnode d' tree ∧ denied_call d' q) ∨
        (e = DunderAttribute ∧ ∃ d', subnode d' tree ∧ dunder_access d')) ∧
       ((∀ d', subnode d' tree → ¬ dunder_access d') →
        (∀ d' q, subnode d' tree → denied_call d' q → q = p) →
        e = CallNotAllowed p)) as (e & Hval & He).
  { rewrite (validate_parsed _ _ _ Hparse).
    destruct (visit tree) as [e|] eqn:Hv.
    - exists e. split; [done|].
      pose proof (visit_raises_disallowed _ _ Hv) as Hcases.
      split; [by destruct Hcases as [(? & ? & -> & _)|[-> _]]|].
      split.
      + destruct Hcases as [(q & d' & ? & ? & ?)|[? (d' & ? & ?)]]; [left|right]; eauto.
      + intros Hnodunder Honly.
        destruct Hcases as [(q & d' & -> & Hd' & Hq)|[_ (d' & Hd' & Hdun)]].
        * by rewrite (Honly d' q Hd' Hq).
        * by destruct (Hnodunder d' Hd').
    - exfalso. rewrite visit_none_iff in Hv. specialize (Hv d Hd).
      apply node_check_call in Hcall. congruence. }
  split.
  - destruct (validate_on_stack_cases E code) as [Hrec|Hsame]; [by left|].
    right. exists e. rewrite Hsame, Hval. done.
  - intros Hfits. rewrite (validate_on_stack_suffices _ _ _ Hparse Hfits), Hval. done.
Qed.

Lemma denied_call_is_rejected_witness :
  validate_on_stack sample_env src_eval ≠ Some RecursionError.
Proof.
  refine (proj2 (denied_call_is_rejected sample_env src_eval tree_eval
                   (Call (Name "eval" Load) [Constant "1+1"] []) "eval" _ _ _) _).
  - vm_compute. reflexivity.
  - apply elem_of_walk. elem_of_concrete.
  - split; [reflexivity|]. eexists. split; [reflexivity|]. split; [reflexivity|].
    elem_of_concrete.
  - vm_compute. reflexivity.
Defined.

(** C6, the claim as stated fails.  [src_dunder_eval] contains a call to
    [eval], and the error it is rejected with does not name [eval]: the
    visit met the access to [__class__] first.  [src_deep], of 1232
    characters, contains a call to [eval] after a sum of 600 terms: the
    visit of the sum, which comes first, needs more than the 1000 frames
    of the interpreter, and the validation raises [RecursionError],
    which is no rejection; so it does when fewer frames are left. *)
Lemma rejection_does_not_always_name_the_primitive :
  (ast_parse sample_env (dedent sample_env src_dunder_eval) = inr tree_dunder_eval ∧
   (subnode (Call (Name "eval" Load) [Constant "1"] []) tree_dunder_eval ∧
    denied_call (Call (Name "eval" Load) [Constant "1"] []) "eval") ∧
   validate_user_code sample_env src_dunder_eval ≠ Some (CallNotAllowed "eval") ∧
   validate_on_stack sample_env src_dunder_eval = Some (Unsafe DunderAttribute)) ∧
  (ast_parse sample_env (dedent sample_env src_deep) = inr tree_deep ∧
   Z.of_nat (String.length src_deep) = 1232%Z ∧
   (subnode deep_call tree_deep ∧ denied_call deep_call "eval") ∧
   validate_on_stack sample_env src_deep = Some RecursionError ∧
   ∀ frames, (frames ≤ 1000)%nat →
             visit_on_stack (cpython_stack frames) [] tree_deep = Some RecursionError).
Proof.
  split.
  - split; [vm_compute; reflexivity|]. split; [|split].
    + split; [apply elem_of_walk; elem_of_concrete|].
      split; [reflexivity|]. eexists. split; [reflexivity|]. split; [reflexivity|].
      elem_of_concrete.
    + assert (validate_user_code sample_env src_dunder_eval = Some DunderAttribute) as ->
        by (vm_compute; reflexivity).
      discriminate.
    + vm_compute. reflexivity.
  - split; [vm_compute; reflexivity|]. split; [vm_compute; reflexivity|]. split.
    + split.
      * apply (subnode_child _ (FunctionDef "run" (arguments [arg "i"]) [Return deep_sum]));
          [elem_of_concrete|].
        apply (subnode_child _ (Return deep_sum)); [elem_of_concrete|].
        apply (subnode_child _ deep_sum); [elem_of_concrete|].
        apply (subnode_child _ deep_call); [elem_of_concrete|constructor].
      * split; [reflexivity|]. eexists. split; [reflexivity|]. split; [reflexivity|].
        elem_of_concrete.
    + split; [vm_compute; reflexivity|]. intros frames Hframes.
      apply (visit_on_stack_mono (cpython_stack 1000)); [|vm_compute; reflexivity].
      intros chain. unfold cpython_stack. rewrite !Nat.ltb_lt. lia.
Qed.

(** C10.  The deny-list test fires only on a call whose callee is a bare
    name of the list; [src_alias] calls [eval] through the variable [e]
    it was bound to, [src_attr] calls it as an attribute of the module
    [builtins], and the validator admits both. *)
Theorem indirect_calls_are_admitted :
  (∀ n id, visit n = Some (CallNotAllowed id) → ∃ d, subnode d n ∧ denied_call d id) ∧
  (ast_parse sample_env (dedent sample_env src_alias) = inr tree_alias ∧
   subnode (Assign [Name "e" Store] (Name "eval" Load)) tree_alias ∧
   subnode (Call (Name "e" Load) [Constant "1+1"] []) tree_alias ∧
   validate_user_code sample_env src_alias = None) ∧
  (ast_parse sample_env (dedent sample_env src_attr) = inr tree_attr ∧
   subnode (Call (Attribute (Name "builtins" Load) "eval" Load) [Constant "1+1"] [])
           tree_attr ∧
   validate_user_code sample_env src_attr = None).
Proof.
  split; [|split].
  - intros n id Hv. apply visit_some in Hv as (d & Hd & Hchk).
    exists d. split; [done|]. by apply node_check_call.
  - split; [vm_compute; reflexivity|].
    split; [apply elem_of_walk; elem_of_concrete|].
    split; [apply elem_of_walk; elem_of_concrete|]. vm_compute. reflexivity.
  - split; [vm_compute; reflexivity|].
    split; [apply elem_of_walk; elem_of_concrete|]. vm_compute. reflexivity.
Qed.

(** ** The remote store *)

Ltac unfold_monad :=
  unfold bind, ret, get_world, set_guild_cache, set_dynamic_commands_cache, set_tree,
    sleep, emit, http_request in *.

Ltac run_monad := unfold_monad; simpl in *.

Lemma with_store_id w : with_store w (net w) (trace w) = w.
Proof. by destruct w. Qed.

Lemma jsonbin_get_loop_store_only k bin key w :
  store_only w (jsonbin_get_loop k bin key w).2.
Proof.
  revert w. induction k as [|k IH]; intros w; simpl; [done|].
  run_monad.
  destruct (default ConnectionError (head (net w))) as [|status [|record]];
    try destruct (Z.eqb status 200); simpl;
    try done;
    match goal with |- store_only _ (jsonbin_get_loop _ _ _ ?w1).2 =>
      destruct (IH w1) as (? & ? & ?); repeat split; simpl in *; congruence end.
Qed.

Lemma jsonbin_put_loop_store_only k bin key record w :
  store_only w (jsonbin_put_loop k bin key record w).2.
Proof.
  revert w. induction k as [|k IH]; intros w; simpl; [done|].
  run_monad.
  destruct (default ConnectionError (head (net w))) as [|status b];
    try destruct (Z.eqb status 200 || Z.eqb status 201); simpl;
    try done;
    match goal with |- store_only _ (jsonbin_put_loop _ _ _ _ ?w1).2 =>
      destruct (IH w1) as (? & ? & ?); repeat split; simpl in *; congruence end.
Qed.

Lemma drop_S_tail {A} k (l : list A) : drop (S k) l = drop k (tail l).
Proof. destruct l; simpl; [by rewrite drop_nil|done]. Qed.

(** When the next [k] answers fail, the loop of [_jsonbin_get] makes
    exactly [k] requests, sleeps one second after each, and runs out. *)
Lemma jsonbin_get_loop_fails k bin key w :
  next_fail get_fails k (net w) = true →
  jsonbin_get_loop k bin key w =
    (None, with_store w (drop k (net w)) (trace w ++ attempts k (EvGet bin key))).
Proof.
  revert w. induction k as [|k IH]; intros w Hfail.
  - simpl. rewrite app_nil_r, drop_0, with_store_id. done.
  - cbn [next_fail] in Hfail. apply andb_true_iff in Hfail as [Hhead Htail].
    cbn [jsonbin_get_loop]. run_monad.
    destruct (default ConnectionError (head (net w))) as [|status [|record]] eqn:Hr;
      simpl in Hhead.
    + rewrite IH by done. simpl. rewrite drop_S_tail, <- !app_assoc. done.
    + rewrite IH by done. simpl. rewrite drop_S_tail, <- !app_assoc. done.
    + destruct (Z.eqb status 200); [done|].
      rewrite IH by done. simpl. rewrite drop_S_tail, <- !app_assoc. done.
Qed.

Lemma jsonbin_put_loop_fails k bin key record w :
  next_fail put_fails k (net w) = true →
  jsonbin_put_loop k bin key record w =
    (false, with_store w (drop k (net w)) (trace w ++ attempts k (EvPut bin key record))).
Proof.
  revert w. induction k as [|k IH]; intros w Hfail.
  - simpl. rewrite app_nil_r, drop_0, with_store_id. done.
  - cbn [next_fail] in Hfail. apply andb_true_iff in Hfail as [Hhead Htail].
    cbn [jsonbin_put_loop]. run_monad.
    destruct (default ConnectionError (head (net w))) as [|status b] eqn:Hr;
      simpl in Hhead.
    + rewrite IH by done. simpl. rewrite drop_S_tail, <- !app_assoc. done.
    + destruct (Z.eqb status 200 || Z.eqb status 201); [done|].
      rewrite IH by done. simpl. rewrite drop_S_tail, <- !app_assoc. done.
Qed.

Section Persistence.
Context (E : Env).

Lemma get_guild_bin_config_store_only guild_id w :
  store_only w (get_guild_bin_config E guild_id w).2.
Proof.
  unfold get_guild_bin_config, get_root_record, _jsonbin_get. unfold_monad.
  pose proof (jsonbin_get_loop_store_only 3 (ROOT_BIN_ID E) (JSONBIN_MASTER_KEY E) w) as H.
  by destruct (jsonbin_get_loop 3 (ROOT_BIN_ID E) (JSONBIN_MASTER_KEY E) w).
Qed.

(** The configuration of a guild is looked up in the root record, itself
    fetched with the three attempts of [_jsonbin_get]. *)
Lemma get_guild_bin_config_fails guild_id w :
  next_fail get_fails 3 (net w) = true →
  get_guild_bin_config E guild_id w =
    (None, with_store w (drop 3 (net w))
             (trace w ++ attempts 3 (EvGet (ROOT_BIN_ID E) (JSONBIN_MASTER_KEY E)))).
Proof.
  intros Hfail. unfold get_guild_bin_config, get_root_record, _jsonbin_get.
  unfold bind, ret. rewrite (jsonbin_get_loop_fails 3 _ _ w Hfail). done.
Qed.

Lemma get_guild_bin_config_served guild_id w root rest :
  net w = Status 200 (JsonObject (Some root)) :: rest →
  get_guild_bin_config E guild_id w =
    (default ∅ (guild_bin_configs root) !! guild_id,
     with_store w rest (trace w ++ [EvGet (ROOT_BIN_ID E) (JSONBIN_MASTER_KEY E)])).
Proof.
  intros Hnet. unfold get_guild_bin_config, get_root_record, _jsonbin_get.
  cbn [jsonbin_get_loop]. unfold_monad. rewrite Hnet. done.
Qed.

Lemma load_guild_data_eq guild_id w :
  load_guild_data E guild_id w =
    match guild_cache w !! guild_id with
    | Some d => (d, w)
    | None =>
        let (config, w1) := get_guild_bin_config E guild_id w in
        match config with
        | None =>
            (empty_doc, with_guild_cache w1 (<[guild_id := empty_doc]> (guild_cache w1)))
        | Some cfg =>
            let (r, w2) := jsonbin_get_loop 3 (bin_id cfg) (master_key cfg) w1 in
            (default empty_doc r,
             with_guild_cache w2 (<[guild_id := default empty_doc r]> (guild_cache w2)))
        end
    end.
Proof.
  unfold load_guild_data, _jsonbin_get. unfold_monad.
  destruct (guild_cache w !! guild_id); [done|].
  destruct (get_guild_bin_config E guild_id w) as [[cfg|] w1]; [|done].
  by destruct (jsonbin_get_loop 3 (bin_id cfg) (master_key cfg) w1).
Qed.

Lemma save_guild_data_eq guild_id guild_data w :
  save_guild_data E guild_id guild_data w =
    let (config, w1) :=
      get_guild_bin_config E guild_id
        (with_guild_cache w (<[guild_id := guild_data]> (guild_cache w))) in
    match config with
    | None => (false, w1)
    | Some cfg => jsonbin_put_loop 3 (bin_id cfg) (master_key cfg) guild_data w1
    end.
Proof.
  unfold save_guild_data, _jsonbin_put, with_guild_cache. unfold_monad.
  match goal with |- context [get_guild_bin_config E guild_id ?w0] =>
    by destruct (get_guild_bin_config E guild_id w0) as [[cfg|] w1] end.
Qed.

Lemma load_guild_data_kept guild_id w :
  registry_kept w (load_guild_data E guild_id w).2.
Proof.
  rewrite load_guild_data_eq.
  destruct (guild_cache w !! guild_id) as [d|]; [done|].
  pose proof (get_guild_bin_config_store_only guild_id w) as Hcfg.
  destruct (get_guild_bin_config E guild_id w) as [[cfg|] w1]; cbn [snd] in Hcfg.
  - pose proof (jsonbin_get_loop_store_only 3 (bin_id cfg) (master_key cfg) w1) as Hget.
    destruct (jsonbin_get_loop 3 (bin_id cfg) (master_key cfg) w1) as [r w2].
    cbn [snd] in *. destruct Hcfg as (? & ? & ?), Hget as (? & ? & ?).
    split; simpl; congruence.
  - destruct Hcfg as (? & ? & ?). split; simpl; congruence.
Qed.

(** Once loaded, the document is the cached one. *)
Lemma load_guild_data_cached guild_id w :
  guild_cache (load_guild_data E guild_id w).2 !! guild_id
  = Some (load_guild_data E guild_id w).1.
Proof.
  rewrite load_guild_data_eq.
  destruct (guild_cache w !! guild_id) as [d|] eqn:Hc; [done|].
  destruct (get_guild_bin_config E guild_id w) as [[cfg|] w1].
  - destruct (jsonbin_get_loop 3 (bin_id cfg) (master_key cfg) w1) as [r w2].
    simpl. by rewrite lookup_insert_eq.
  - simpl. by rewrite lookup_insert_eq.
Qed.

Lemma save_guild_data_cache guild_id guild_data w :
  guild_cache (save_guild_data E guild_id guild_data w).2
  = <[guild_id := guild_data]> (guild_cache w) ∧
  registry_kept w (save_guild_data E guild_id guild_data w).2.
Proof.
  rewrite save_guild_data_eq.
  set (w0 := with_guild_cache w (<[guild_id:=guild_data]> (guild_cache w))).
  pose proof (get_guild_bin_config_store_only guild_id w0) as Hcfg.
  destruct (get_guild_bin_config E guild_id w0) as [[cfg|] w1]; cbn [snd] in Hcfg.
  - pose proof (jsonbin_put_loop_store_only 3 (bin_id cfg) (master_key cfg) guild_data w1)
      as Hput.
    destruct (jsonbin_put_loop 3 (bin_id cfg) (master_key cfg) guild_data w1) as [ok w2].
    cbn [snd] in *. destruct Hcfg as (? & ? & ?), Hput as (? & ? & ?).
    subst w0. simpl in *. split; [|split]; congruence.
  - cbn [snd]. destruct Hcfg as (? & ? & ?).
    subst w0. simpl in *. split; [|split]; congruence.
Qed.

Lemma cache_store_eq guild_id cmd_name data w :
  cache_store guild_id cmd_name data w =
    (tt, {| dynamic_commands_cache :=
              <[guild_id := <[cmd_name := data]>
                              (default ∅ (dynamic_commands_cache w !! guild_id))]>
                (dynamic_commands_cache w);
            guild_cache := guild_cache w; tree := tree w;
            net := net w; trace := trace w |}).
Proof. reflexivity. Qed.

Lemma save_dynamic_command_eq guild_id cmd_name code description w :
  save_dynamic_command E guild_id cmd_name code description w =
    let data := CmdDict code (description_or description cmd_name) in
    let (guild_data, w1) := load_guild_data E guild_id (cache_store guild_id cmd_name data w).2 in
    save_guild_data E guild_id
      {| guild_bin_configs := guild_bin_configs guild_data;
         dynamic_commands :=
           Some (<[cmd_name := data]> (default ∅ (dynamic_commands guild_data)));
         other_keys := other_keys guild_data |} w1.
Proof. reflexivity. Qed.

(** [save_dynamic_command] writes the entry in the in-memory map and
    leaves the tree alone, whatever becomes of the remote write. *)
Lemma save_dynamic_command_cache guild_id cmd_name code description w :
  dynamic_commands_cache (save_dynamic_command E guild_id cmd_name code description w).2
  = <[guild_id := <[cmd_name := CmdDict code (description_or description cmd_name)]>
                    (default ∅ (dynamic_commands_cache w !! guild_id))]>
      (dynamic_commands_cache w) ∧
  tree (save_dynamic_command E guild_id cmd_name code description w).2 = tree w.
Proof.
  rewrite save_dynamic_command_eq. cbv zeta. rewrite cache_store_eq. cbn [snd].
  match goal with |- context [load_guild_data E guild_id ?w0] =>
    pose proof (load_guild_data_kept guild_id w0) as [Hlc Hlt];
    destruct (load_guild_data E guild_id w0) as [d w1] end.
  match goal with |- context [save_guild_data E guild_id ?d' w1] =>
    destruct (save_guild_data_cache guild_id d' w1) as [_ [Hsc Hst]] end.
  cbn [snd] in *. rewrite Hsc, Hlc, Hst, Hlt. done.
Qed.

Lemma delete_dynamic_command_from_store_eq guild_id cmd_name w :
  delete_dynamic_command_from_store E guild_id cmd_name w =
    let (guild_data, w1) :=
      load_guild_data E guild_id
        {| dynamic_commands_cache :=
             alter (delete cmd_name) guild_id (dynamic_commands_cache w);
           guild_cache := guild_cache w; tree := tree w;
           net := net w; trace := trace w |} in
    match dynamic_commands guild_data with
    | Some cmds =>
        save_guild_data E guild_id
          {| guild_bin_configs := guild_bin_configs guild_data;
             dynamic_commands := Some (delete cmd_name cmds);
             other_keys := other_keys guild_data |} w1
    | None => (true, w1)
    end.
Proof.
  unfold delete_dynamic_command_from_store. unfold_monad.
  match goal with |- context [load_guild_data E guild_id ?w0] =>
    destruct (load_guild_data E guild_id w0) as [d w1] end.
  by destruct (dynamic_commands d).
Qed.

(** [delete_dynamic_command_from_store] pops the name from the in-memory
    map and leaves the tree alone, whatever becomes of the remote write. *)
Lemma delete_dynamic_command_from_store_cache guild_id cmd_name w :
  dynamic_commands_cache (delete_dynamic_command_from_store E guild_id cmd_name w).2
  = alter (delete cmd_name) guild_id (dynamic_commands_cache w) ∧
  tree (delete_dynamic_command_from_store E guild_id cmd_name w).2 = tree w.
Proof.
  rewrite delete_dynamic_command_from_store_eq.
  match goal with |- context [load_guild_data E guild_id ?w0] =>
    pose proof (load_guild_data_kept guild_id w0) as [Hlc Hlt];
    destruct (load_guild_data E guild_id w0) as [d w1] end.
  cbn [snd] in *. destruct (dynamic_commands d) as [cmds|]; [|done].
  match goal with |- context [save_guild_data E guild_id ?d' w1] =>
    destruct (save_guild_data_cache guild_id d' w1) as [_ [Hsc Hst]] end.
  rewrite Hsc, Hlc, Hst, Hlt. done.
Qed.

End Persistence.

(** C8.  A guild whose document is not cached: when every request to
    the store fails, [load_guild_data] makes the three attempts of
    [_jsonbin_get], each followed by the one-second sleep, and returns the
    empty document (which it caches); the same three attempts are made
    on the guild's own bin when the root record could be fetched and
    names that bin.  No error is returned. *)
Theorem load_guild_data_three_attempts_then_empty E T w :
  guild_cache w !! T = None →
  (next_fail get_fails 3 (net w) = true →
   load_guild_data E T w =
     (empty_doc,
      with_guild_cache
        (with_store w (drop 3 (net w))
           (trace w ++ attempts 3 (EvGet (ROOT_BIN_ID E) (JSONBIN_MASTER_KEY E))))
        (<[T := empty_doc]> (guild_cache w)))) ∧
  (∀ root cfg rest,
     net w = Status 200 (JsonObject (Some root)) :: rest →
     default ∅ (guild_bin_configs root) !! T = Some cfg →
     next_fail get_fails 3 rest = true →
     load_guild_data E T w =
       (empty_doc,
        with_guild_cache
          (with_store w (drop 3 rest)
             (trace w ++ EvGet (ROOT_BIN_ID E) (JSONBIN_MASTER_KEY E)
                      :: attempts 3 (EvGet (bin_id cfg) (master_key cfg))))
          (<[T := empty_doc]> (guild_cache w)))).
Proof.
  intros Hmiss. rewrite load_guild_data_eq, Hmiss. split.
  - intros Hfail. rewrite (get_guild_bin_config_fails E T w Hfail). done.
  - intros root cfg rest Hnet Hcfg Hfail.
    rewrite (get_guild_bin_config_served E T w root rest Hnet), Hcfg.
    rewrite jsonbin_get_loop_fails by done.
    simpl. rewrite <- app_assoc. done.
Qed.

Lemma load_guild_data_three_attempts_then_empty_witness :
  load_guild_data sample_env "T1" world_empty =
    (empty_doc,
     {| dynamic_commands_cache := ∅; guild_cache := {[ "T1" := empty_doc ]}; tree := ∅;
        net := [];
        trace := [EvGet "root-bin" "root-key"; EvSleep 1;
                  EvGet "root-bin" "root-key"; EvSleep 1;
                  EvGet "root-bin" "root-key"; EvSleep 1] |}) ∧
  load_guild_data sample_env "T1" world_config_then_down =
    (empty_doc,
     {| dynamic_commands_cache := ∅; guild_cache := {[ "T1" := empty_doc ]}; tree := ∅;
        net := [];
        trace := [EvGet "root-bin" "root-key";
                  EvGet "bin-T1" "key-T1"; EvSleep 1;
                  EvGet "bin-T1" "key-T1"; EvSleep 1;
                  EvGet "bin-T1" "key-T1"; EvSleep 1] |}).
Proof.
  split.
  - refine (proj1 (load_guild_data_three_attempts_then_empty
                     sample_env "T1" world_empty _) _); reflexivity.
  - refine (proj2 (load_guild_data_three_attempts_then_empty
                     sample_env "T1" world_config_then_down _) root_doc
              {| bin_id := "bin-T1"; master_key := "key-T1" |} [] _ _ _); reflexivity.
Defined.

(** C9.  [save_guild_data] stores the document in the cache first: all
    its requests are made from the state in which the cache already
    holds it.  Whatever the store answers, the cache holds the document
    afterwards and the in-memory command map and the tree are the ones
    it was called with; when the three attempts of [_jsonbin_put] fail
    (or the guild has no bin), it returns [False].  The entry that
    [save_dynamic_command] has put in the in-memory map before the write
    is still there when the write has failed. *)
Theorem save_guild_data_cache_first E T D w :
  save_guild_data E T D w =
    (let* config := get_guild_bin_config E T in
     match config with
     | None => ret false
     | Some cfg => _jsonbin_put (bin_id cfg) (master_key cfg) D
     end) (with_guild_cache w (<[T := D]> (guild_cache w))) ∧
  (guild_cache (save_guild_data E T D w).2 !! T = Some D ∧
   registry_kept w (save_guild_data E T D w).2) ∧
  (∀ root cfg rest,
     net w = Status 200 (JsonObject (Some root)) :: rest →
     default ∅ (guild_bin_configs root) !! T = Some cfg →
     next_fail put_fails 3 rest = true →
     save_guild_data E T D w =
       (false,
        with_guild_cache
          (with_store w (drop 3 rest)
             (trace w ++ EvGet (ROOT_BIN_ID E) (JSONBIN_MASTER_KEY E)
                      :: attempts 3 (EvPut (bin_id cfg) (master_key cfg) D)))
          (<[T := D]> (guild_cache w)))) ∧
  (∀ name code description,
     (save_dynamic_command E T name code description w).1 = false →
     cached (save_dynamic_command E T name code description w).2 T name
     = Some (CmdDict code (description_or description name))).
Proof.
  split; [done|]. split; [|split].
  - destruct (save_guild_data_cache E T D w) as [Hc Hk]. split; [|done].
    rewrite Hc. apply lookup_insert_eq.
  - intros root cfg rest Hnet Hcfg Hfail.
    rewrite save_guild_data_eq.
    erewrite get_guild_bin_config_served by exact Hnet. rewrite Hcfg.
    rewrite jsonbin_put_loop_fails by done.
    simpl. rewrite <- app_assoc. done.
  - intros name code description _.
    destruct (save_dynamic_command_cache E T name code description w) as [Hc _].
    unfold cached. rewrite Hc, lookup_insert_eq. simpl. apply lookup_insert_eq.
Qed.

(** ** The registry *)

Lemma with_tree_id w : with_tree w (tree w) = w.
Proof. by destruct w. Qed.

Lemma without_command_eq w guild_id cmd_name :
  without_command w guild_id cmd_name
  = with_tree w (delete (guild_id, cmd_name) (tree w)).
Proof.
  unfold without_command. destruct (tree w !! (guild_id, cmd_name)) eqn:Hk; [done|].
  by rewrite delete_id, with_tree_id.
Qed.

Lemma cached_alter_delete (m : gmap string (gmap string cmd_data)) guild_id cmd_name n :
  alter (delete cmd_name) guild_id m !! guild_id ≫= (.!! n)
  = if decide (n = cmd_name) then None else m !! guild_id ≫= (.!! n).
Proof.
  rewrite lookup_alter_eq. destruct (m !! guild_id) as [cmds|]; simpl.
  - case_decide as Hn; [subst; apply lookup_delete_eq|by apply lookup_delete_ne].
  - by case_decide.
Qed.

Section Registry.
Context (E : Env).

Lemma register_dynamic_command_eq guild_id cmd_name code description w :
  register_dynamic_command E guild_id cmd_name code description w =
    match validate_user_code E code with
    | Some e => ((false, Some (str_error e)), w)
    | None =>
      match exec_code E (dedent E code) with
      | ExecRaises detail => ((false, Some ("Execution error: " ++ detail)), w)
      | ExecDone (Some (Callable run)) =>
          let w1 := without_command w guild_id cmd_name in
          let desc := String.substring 0 100 (description_or description cmd_name) in
          match add_command_check (tree w1) guild_id cmd_name with
          | Some e =>
              ((false, Some ("Failed to add command: " ++ add_command_error_str E e)), w1)
          | None =>
              ((true, None),
               {| dynamic_commands_cache :=
                    <[guild_id := <[cmd_name := CmdDict code desc]>
                                    (default ∅ (dynamic_commands_cache w1 !! guild_id))]>
                      (dynamic_commands_cache w1);
                  guild_cache := guild_cache w1;
                  tree := <[(guild_id, cmd_name) :=
                              {| cmd_name := cmd_name; cmd_description := desc;
                                 cmd_run := run |}]> (tree w1);
                  net := net w1; trace := trace w1 |})
          end
      | ExecDone _ =>
          ((false, Some "No callable run(interaction) function found in code."), w)
      end
    end.
Proof.
  unfold register_dynamic_command, without_command.
  destruct (validate_user_code E code); [done|].
  destruct (exec_code E (dedent E code)) as [|[[|run]|]]; try done.
  unfold tree_get_command, tree_remove_command, tree_add_command, cache_store.
  unfold_monad.
  destruct (tree w !! (guild_id, cmd_name)); simpl;
    match goal with |- context [add_command_check ?t guild_id cmd_name] =>
      by destruct (add_command_check t guild_id cmd_name) end.
Qed.



(** A failed registration leaves the state as it was, except when it is
    [add_command] that failed after a command of that name was removed
    from the tree: the guild then has more than 100 commands. *)
Lemma register_dynamic_command_failed guild_id cmd_name code description w :
  (register_dynamic_command E guild_id cmd_name code description w).1.1 = false →
  ((validate_user_code E code ≠ None ∨
    ∀ run, exec_code E (dedent E code) ≠ ExecDone (Some (Callable run))) ∧
   (register_dynamic_command E guild_id cmd_name code description w).2 = w) ∨
  (validate_user_code E code = None ∧
   (∃ run, exec_code E (dedent E code) = ExecDone (Some (Callable run))) ∧
   is_Some (add_command_check (tree (without_command w guild_id cmd_name))
              guild_id cmd_name) ∧
   (register_dynamic_command E guild_id cmd_name code description w).2
   = with_tree w (delete (guild_id, cmd_name) (tree w))).
Proof.
  rewrite register_dynamic_command_eq.
  destruct (validate_user_code E code) eqn:Hv; [left; split; [by left|done]|].
  destruct (exec_code E (dedent E code)) as [|[[|run]|]] eqn:Hx;
    try (left; split; [by right|done]).
  cbv zeta.
  destruct (add_command_check (tree (without_command w guild_id cmd_name))
              guild_id cmd_name) eqn:Ha; [|done].
  intros _. right. cbn [snd]. rewrite without_command_eq. eauto.
Qed.


Lemma delete_command_eq guild_id command_name w :
  delete_command E true guild_id command_name w =
    let (ok, w2) :=
      delete_dynamic_command_from_store E guild_id command_name
        (without_command w guild_id command_name) in
    if ok then (Deleted command_name, with_store w2 (net w2) (trace w2 ++ [EvSync]))
    else (StorageFailed, w2).
Proof.
  unfold delete_command, without_command, tree_get_command, tree_remove_command,
    sync_all_guild_commands, with_tree.
  unfold_monad. cbn [negb].
  destruct (tree w !! (guild_id, command_name));
    match goal with |- context [delete_dynamic_command_from_store E _ _ ?w0] =>
      by destruct (delete_dynamic_command_from_store E guild_id command_name w0)
           as [[|] w2] end.
Qed.

Lemma rename_command_eq guild_id old_name new_name w :
  rename_command E true guild_id old_name new_name w =
    match cached w guild_id old_name with
    | None => (NotFound old_name, w)
    | Some cmd_data =>
        let code := match cmd_data with CmdDict c _ => c | CmdStr c => c end in
        let desc := match cmd_data with
                    | CmdDict _ d => d
                    | CmdStr _ => "Dynamic command: " ++ new_name
                    end in
        let (_, w2) :=
          delete_dynamic_command_from_store E guild_id old_name
            (without_command w guild_id old_name) in
        let (r, w3) := register_dynamic_command E guild_id new_name code (Some desc) w2 in
        if r.1 then
          let (_, w4) := save_dynamic_command E guild_id new_name code (Some desc) w3 in
          (Renamed old_name new_name, with_store w4 (net w4) (trace w4 ++ [EvSync]))
        else (RegistrationFailed r.2, w3)
    end.
Proof.
  unfold rename_command, cached, without_command, tree_get_command, tree_remove_command,
    sync_all_guild_commands, with_tree.
  unfold_monad. cbn [negb].
  destruct (dynamic_commands_cache w !! guild_id ≫= (.!! old_name)) as [data|]; [|done].
  destruct (tree w !! (guild_id, old_name));
    match goal with |- context [delete_dynamic_command_from_store E _ _ ?w0] =>
      destruct (delete_dynamic_command_from_store E guild_id old_name w0) as [ok w2] end;
    match goal with |- context [register_dynamic_command E _ _ ?c ?d ?w'] =>
      destruct (register_dynamic_command E guild_id new_name c d w') as [[[|] err] w3] end;
    cbn [fst snd negb]; try done;
    match goal with |- context [save_dynamic_command E _ _ ?c ?d ?w'] =>
      by destruct (save_dynamic_command E guild_id new_name c d w') end.
Qed.

End Registry.

(** [register_dynamic_command] keeps the tree within the limit of 100
    commands for each guild, the invariant that [add_command]
    maintains. *)
Lemma register_dynamic_command_keeps_limit E guild_id cmd_name code description w :
  (∀ g, guild_commands (tree w) g ≤ 100)%nat →
  ∀ g, (guild_commands (tree (register_dynamic_command E guild_id cmd_name code
                                description w).2) g ≤ 100)%nat.
Proof.
  intros Hlimit g. rewrite register_dynamic_command_eq.
  assert (guild_commands (tree (without_command w guild_id cmd_name)) g ≤ 100)%nat as Hw1.
  { rewrite without_command_eq. cbn [tree with_tree]. etrans; [|apply (Hlimit g)].
    unfold guild_commands. apply map_subseteq_size, map_filter_subseteq_mono, delete_subseteq. }
  destruct (validate_user_code E code); [apply Hlimit|].
  destruct (exec_code E (dedent E code)) as [|[[|run]|]]; try apply Hlimit.
  cbv zeta. unfold add_command_check.
  case_decide as Hin; [done|]. case_decide as Hfull; [done|]. cbn [snd tree].
  unfold guild_commands in *.
  destruct (decide (guild_id = g)) as [->|Hg].
  - rewrite map_filter_insert_True by done. rewrite map_size_insert_None; [lia|].
    apply map_lookup_filter_None. left.
    destruct (tree (without_command w g cmd_name) !! (g, cmd_name)) eqn:Hk; [|done].
    destruct Hin. by eexists.
  - rewrite map_filter_insert_not by (intros ?; done). done.
Qed.



(** C5, as amended.  [delete_command] has no not-found answer: whether
    or not the name is registered, it ends with the name absent from the
    in-memory map and from the dispatch table and every other name of
    the guild as it was.  Its answer is decided by the store helper,
    called once the name is out of the dispatch table: it answers that
    the command is deleted, after requesting the synchronisation of the
    dispatch table, exactly when [delete_dynamic_command_from_store]
    returns [True], and that the deletion from storage failed, without
    requesting the synchronisation, exactly when it returns [False]. *)
Theorem delete_command_never_reports_not_found E T N w :
  let r := delete_command E true T N w in
  let stored := delete_dynamic_command_from_store E T N (without_command w T N) in
  (r.1 = Deleted N ∨ r.1 = StorageFailed) ∧
  (r.1 = Deleted N ↔ stored.1 = true) ∧
  (r.1 = StorageFailed ↔ stored.1 = false) ∧
  (r.1 = Deleted N →
   r.2 = with_store stored.2 (net stored.2) (trace stored.2 ++ [EvSync])) ∧
  (r.1 = StorageFailed → r.2 = stored.2) ∧
  cached r.2 T N = None ∧
  tree r.2 !! (T, N) = None ∧
  (∀ n, n ≠ N → cached r.2 T n = cached w T n ∧ tree r.2 !! (T, n) = tree w !! (T, n)) ∧
  (r.1 = Deleted N → ∃ t, trace r.2 = (t ++ [EvSync])%list).
Proof.
  cbv zeta. rewrite delete_command_eq.
  pose proof (delete_dynamic_command_from_store_cache E T N (without_command w T N))
    as [Hc Ht].
  destruct (delete_dynamic_command_from_store E T N (without_command w T N)) as [ok w2].
  cbn [snd] in Hc, Ht. rewrite without_command_eq in Hc, Ht. simpl in Hc, Ht.
  assert (cached w2 T N = None ∧ tree w2 !! (T, N) = None ∧
          ∀ n, n ≠ N → cached w2 T n = cached w T n ∧
                        tree w2 !! (T, n) = tree w !! (T, n)) as (H1 & H2 & H3).
  { unfold cached. rewrite Hc, Ht. split; [|split].
    - rewrite cached_alter_delete. by case_decide.
    - apply lookup_delete_eq.
    - intros n Hn. split.
      + rewrite cached_alter_delete. by case_decide.
      + apply lookup_delete_ne. congruence. }
  destruct ok; cbn [fst snd].
  - split; [by left|]. split; [done|]. split; [done|]. split; [done|]. split; [done|].
    split; [done|]. split; [done|]. split; [done|].
    intros _. by eexists.
  - split; [by right|]. split; [done|]. split; [done|]. split; [done|]. split; [done|].
    split; [done|]. split; [done|]. split; [done|]. done.
Qed.

(** C5, the claim as stated fails: nothing is registered in [T1], and
    deleting [ghost] there is answered as a deletion. *)
Lemma deleting_an_absent_command_is_answered_deleted :
  cached world_empty "T1" "ghost" = None ∧
  tree world_empty !! ("T1", "ghost") = None ∧
  (delete_command sample_env true "T1" "ghost" world_empty).1 = Deleted "ghost" ∧
  (delete_command sample_env true "T1" "ghost" world_empty).1 ≠ NotFound "ghost".
Proof.
  split; [vm_compute; reflexivity|]. split; [vm_compute; reflexivity|].
  assert ((delete_command sample_env true "T1" "ghost" world_empty).1 = Deleted "ghost")
    as -> by (vm_compute; reflexivity).
  split; [done|discriminate].
Qed.

(** C1, as amended.  [rename_command] removes the old name before it
    registers the new one.  When the registration of the new name
    fails, the old name, which was registered, has been removed from the
    in-memory map and from the dispatch table and is not restored; every
    other entry of the in-memory map, the one of the new name included,
    is what it was before the call. *)
Theorem failed_rename_has_removed_old_name E T old new w err :
  (rename_command E true T old new w).1 = RegistrationFailed err →
  is_Some (cached w T old) ∧
  cached (rename_command E true T old new w).2 T old = None ∧
  tree (rename_command E true T old new w).2 !! (T, old) = None ∧
  (∀ n, n ≠ old → cached (rename_command E true T old new w).2 T n = cached w T n) ∧
  (∀ n, n ≠ old → n ≠ new →
        tree (rename_command E true T old new w).2 !! (T, n) = tree w !! (T, n)).
Proof.
  rewrite rename_command_eq.
  destruct (cached w T old) as [data|] eqn:Hold; [|done]. cbv zeta.
  pose proof (delete_dynamic_command_from_store_cache E T old (without_command w T old))
    as [Hc Ht].
  destruct (delete_dynamic_command_from_store E T old (without_command w T old))
    as [ok w2].
  cbn [snd] in Hc, Ht. rewrite without_command_eq in Hc, Ht. simpl in Hc, Ht.
  match goal with |- context [register_dynamic_command E T new ?c ?d w2] =>
    pose proof (register_dynamic_command_failed E T new c d w2) as Hreg;
    destruct (register_dynamic_command E T new c d w2) as [[success error] w3] end.
  cbn [fst snd] in *. destruct success.
  { match goal with |- context [save_dynamic_command E T new ?c ?d w3] =>
      by destruct (save_dynamic_command E T new c d w3) end. }
  intros _. cbn [fst snd]. split; [done|].
  assert (dynamic_commands_cache w3 = dynamic_commands_cache w2 ∧
          (tree w3 = tree w2 ∨ tree w3 = delete (T, new) (tree w2))) as [Hc3 Ht3].
  { destruct (Hreg eq_refl) as [[_ ->]|(_ & _ & _ & ->)]; simpl; auto. }
  unfold cached. rewrite Hc3, Hc. split; [|split; [|split]].
  - rewrite cached_alter_delete. by case_decide.
  - destruct Ht3 as [->| ->]; rewrite Ht.
    + apply lookup_delete_eq.
    + apply lookup_delete_None. right. apply lookup_delete_eq.
  - intros n Hn. rewrite cached_alter_delete. by case_decide.
  - intros n Hn Hn'. destruct Ht3 as [->| ->]; rewrite Ht.
    + apply lookup_delete_ne. congruence.
    + rewrite lookup_delete_ne by congruence. apply lookup_delete_ne. congruence.
Qed.

Lemma failed_rename_has_removed_old_name_witness :
  cached (rename_command env_second_exec true "T1" "once" "twice" world_once).2 "T1" "once"
  = None.
Proof.
  refine (proj1 (proj2 (failed_rename_has_removed_old_name
            env_second_exec "T1" "once" "twice" world_once
            (Some "Execution error: loaded twice") _))).
  vm_compute. reflexivity.
Defined.

(** C1, the claim as stated fails.  [once] is registered in [T1] and
    answers [pong]; its source raises when it is executed again, which
    the registration of the new name does: the rename fails, and [once]
    is neither in the in-memory map nor in the dispatch table any more.  Likewise [calc], which the
    in-memory map holds with a source that the validator rejects: the
    rename fails and the in-memory map has lost it. *)
Lemma failed_rename_loses_old_name :
  (cached world_once "T1" "once" = Some once_data ∧
   tree world_once !! ("T1", "once") = Some once_command ∧
   (invoke "T1" "once" fresh_interaction world_once).1
   = Some (Returned, {| is_done := true; sent := ["pong"]; send_raises := false |}) ∧
   (rename_command env_second_exec true "T1" "once" "twice" world_once).1
   = RegistrationFailed (Some "Execution error: loaded twice") ∧
   cached (rename_command env_second_exec true "T1" "once" "twice" world_once).2
     "T1" "once" = None ∧
   tree (rename_command env_second_exec true "T1" "once" "twice" world_once).2
     !! ("T1", "once") = None ∧
   (invoke "T1" "once" fresh_interaction
      (rename_command env_second_exec true "T1" "once" "twice" world_once).2).1 = None ∧
   ¬ (cached (rename_command env_second_exec true "T1" "once" "twice" world_once).2
        "T1" "once" = Some once_data ∧
      tree (rename_command env_second_exec true "T1" "once" "twice" world_once).2
        !! ("T1", "once") = Some once_command)) ∧
  (cached world_stored "T1" "calc" = Some calc_data ∧
   (rename_command sample_env true "T1" "calc" "calculate" world_stored).1
   = RegistrationFailed (Some "Call to eval not allowed.") ∧
   cached (rename_command sample_env true "T1" "calc" "calculate" world_stored).2
     "T1" "calc" = None).
Proof.
  split.
  - split; [vm_compute; reflexivity|]. split; [vm_compute; reflexivity|].
    split; [vm_compute; reflexivity|]. split; [vm_compute; reflexivity|].
    split; [vm_compute; reflexivity|]. split; [vm_compute; reflexivity|].
    split; [vm_compute; reflexivity|].
    intros [H _]. vm_compute in H. discriminate.
  - split; [vm_compute; reflexivity|]. split; vm_compute; reflexivity.
Qed.

(** C7, as amended.  An invocation never changes the registry.  An
    exception raised inside the handler that derives from [Exception] is
    caught by the callback, which returns normally: a timeout error is
    answered with the timeout notice (provided the notice can be sent
    or the interaction is already answered), any other with the error
    message, sent for this interaction only and only when it is not yet
    answered.  An exception outside the [Exception] hierarchy
    ([SystemExit], [KeyboardInterrupt], [CancelledError]) is not caught
    and leaves the callback. *)
Theorem handler_exception_is_contained g name cmd i w e i1 :
  tree w !! (g, name) = Some cmd →
  call (cmd_run cmd) i = (Raises e, i1) →
  (invoke g name i w).2 = w ∧
  (exn_class e = ExceptionK →
   ∃ i', (invoke g name i w).1 = Some (Returned, i') ∧
         sent i' = (sent i1 ++ (if is_done i1 || send_raises i1 then []
                                else [("❌ Error: " ++ exn_str e)%string]))%list) ∧
  (exn_class e = TimeoutErrorK →
   is_done i1 = true ∨ send_raises i1 = false →
   ∃ i', (invoke g name i w).1 = Some (Returned, i') ∧
         sent i' = (sent i1 ++ (if is_done i1 then []
                                else ["⏱️ Command timed out."]))%list) ∧
  (exn_class e = BaseExceptionK →
   (invoke g name i w).1 = Some (Propagated e, i1)).
Proof.
  intros Hcmd Hcall. unfold invoke, bind, ret, get_world. cbn [fst snd].
  rewrite Hcmd. unfold callback, callback_try. rewrite Hcall.
  split; [done|]. split; [|split].
  - intros ->. unfold send_message.
    destruct (is_done i1), (send_raises i1); simpl;
      eexists; (split; [reflexivity|]); simpl; by rewrite ?app_nil_r.
  - intros -> Hsend. unfold send_message.
    destruct (is_done i1), (send_raises i1); simpl;
      try (eexists; (split; [reflexivity|]); simpl; by rewrite ?app_nil_r).
    by destruct Hsend.
  - by intros ->.
Qed.

Lemma handler_exception_is_contained_witness :
  (invoke "T1" "boom" fresh_interaction world_handlers).2 = world_handlers.
Proof.
  refine (proj1 (handler_exception_is_contained "T1" "boom"
            {| cmd_name := "boom"; cmd_description := "raises ValueError";
               cmd_run := failing_run |}
            fresh_interaction world_handlers
            {| exn_class := ExceptionK; exn_str := "boom" |} fresh_interaction _ _));
    vm_compute; reflexivity.
Defined.

(** C7, the claim as stated fails: the handler of [quit] raises
    [SystemExit], which leaves the callback. *)
Lemma system_exit_leaves_the_callback :
  (invoke "T1" "quit" fresh_interaction world_handlers).1
  = Some (Propagated {| exn_class := BaseExceptionK; exn_str := "SystemExit" |},
          fresh_interaction) ∧
  ¬ ∃ i', (invoke "T1" "quit" fresh_interaction world_handlers).1 = Some (Returned, i').
Proof.
  assert ((invoke "T1" "quit" fresh_interaction world_handlers).1
          = Some (Propagated {| exn_class := BaseExceptionK; exn_str := "SystemExit" |},
                  fresh_interaction)) as -> by (vm_compute; reflexivity).
  split; [done|]. by intros [i' ?].
Qed.

(** ** The scenarios of the design document, on the sample sources *)

(** Scenario 1: [src_pong] is admitted, its registration as [ping]
    succeeds, and invoking [ping] answers [pong]. *)
Example scenario_ping_pong :
  validate_user_code sample_env src_pong = None ∧
  (register_dynamic_command sample_env "T1" "ping" src_pong (Some "pings") world_empty).1
  = (true, None) ∧
  cached (register_dynamic_command sample_env "T1" "ping" src_pong (Some "pings")
            world_empty).2 "T1" "ping" = Some ping_data ∧
  (invoke "T1" "ping" fresh_interaction
     (register_dynamic_command sample_env "T1" "ping" src_pong (Some "pings")
        world_empty).2).1
  = Some (Returned, {| is_done := true; sent := ["pong"]; send_raises := false |}).
Proof. repeat split; vm_compute; reflexivity. Qed.

(** Scenario 2: [src_eval] is rejected for its call to [eval], its
    registration fails and leaves no entry. *)
Example scenario_eval_rejected :
  validate_user_code sample_env src_eval = Some (CallNotAllowed "eval") ∧
  (register_dynamic_command sample_env "T1" "calc" src_eval None world_empty).1
  = (false, Some "Call to eval not allowed.") ∧
  cached (register_dynamic_command sample_env "T1" "calc" src_eval None world_empty).2
    "T1" "calc" = None.
Proof. repeat split; vm_compute; reflexivity. Qed.

(** Scenario 3: a valid [run] followed by a comment that brings the
    source to 10035 characters is too long. *)
Example scenario_too_long :
  Z.of_nat (String.length src_pong_long) = 10035%Z ∧
  validate_user_code sample_env src_pong_long = Some CodeTooLong.
Proof. split; vm_compute; reflexivity. Qed.

(** Two definitions of [run] with two parameters each are admitted; a
    source without [run] is not; of two deny-listed calls the first one
    met is named. *)
Example more_entry_point_samples :
  spec_entry_point tree_twice = false ∧
  validate_user_code sample_env src_twice = None ∧
  validate_user_code sample_env src_no_run = Some MissingRun ∧
  validate_user_code sample_env src_exec_eval = Some (CallNotAllowed "exec").
Proof. repeat split; vm_compute; reflexivity. Qed.

(** * Further properties of the persistence helpers *)

Lemma jsonbin_get_loop_first_success n k bin key w record :
  (k < n)%nat →
  next_fail get_fails k (net w) = true →
  net w !! k = Some (Status 200 (JsonObject record)) →
  jsonbin_get_loop n bin key w =
    (Some (default empty_doc record),
     with_store w (drop (S k) (net w))
       (trace w ++ attempts k (EvGet bin key) ++ [EvGet bin key])).
Proof.
  revert n w. induction k as [|k IH]; intros n w Hlt Hfail Hk.
  - destruct n as [|n]; [lia|]. cbn [jsonbin_get_loop]. unfold_monad.
    destruct (net w) as [|r rest] eqn:Hnet; [done|]. injection Hk as ->. done.
  - destruct n as [|n]; [lia|].
    cbn [next_fail] in Hfail. apply andb_true_iff in Hfail as [Hhead Htail].
    cbn [jsonbin_get_loop]. unfold_monad.
    assert (tail (net w) !! k = Some (Status 200 (JsonObject record))) as Hk'.
    { destruct (net w); [done|]. done. }
    destruct (default ConnectionError (head (net w))) as [|status [|record']] eqn:Hr;
      simpl in Hhead;
      try (destruct (Z.eqb status 200); [done|]);
      (rewrite (IH n) by (simpl; first [lia|done]); simpl;
       rewrite (drop_S_tail (S k) (net w)), <- !app_assoc; done).
Qed.

(** X1.  [_jsonbin_get] stops at the first answer it can use: when the
    first [k] answers fail ([k] being 0, 1 or 2) and the next one is a
    200 with a JSON object, it returns the record of that answer (the
    empty document for a missing or null record) after [k+1] requests
    and [k] sleeps, and makes no further request. *)
Theorem jsonbin_get_returns_first_success bin key w k record :
  (k < 3)%nat →
  next_fail get_fails k (net w) = true →
  net w !! k = Some (Status 200 (JsonObject record)) →
  _jsonbin_get bin key w =
    (default empty_doc record,
     with_store w (drop (S k) (net w))
       (trace w ++ attempts k (EvGet bin key) ++ [EvGet bin key])).
Proof.
  intros Hlt Hfail Hk. unfold _jsonbin_get, bind, ret.
  by rewrite (jsonbin_get_loop_first_success 3 k bin key w record).
Qed.

Lemma jsonbin_get_returns_first_success_witness :
  _jsonbin_get "bin-T1" "key-T1"
    {| dynamic_commands_cache := ∅; guild_cache := ∅; tree := ∅;
       net := [Status 500 NotJson; Status 200 (JsonObject (Some ping_doc));
               ConnectionError];
       trace := [] |}
  = (ping_doc,
     {| dynamic_commands_cache := ∅; guild_cache := ∅; tree := ∅;
        net := [ConnectionError];
        trace := [EvGet "bin-T1" "key-T1"; EvSleep 1; EvGet "bin-T1" "key-T1"] |}).
Proof.
  refine (jsonbin_get_returns_first_success "bin-T1" "key-T1" _ 1 (Some ping_doc) _ _ _).
  - lia.
  - reflexivity.
  - reflexivity.
Defined.

Lemma jsonbin_put_loop_result n bin key record w :
  (jsonbin_put_loop n bin key record w).1 = negb (next_fail put_fails n (net w)).
Proof.
  revert w. induction n as [|n IH]; intros w; [done|].
  cbn [jsonbin_put_loop next_fail]. unfold_monad.
  destruct (default ConnectionError (head (net w))) as [|status b]; simpl.
  - by rewrite IH.
  - destruct (Z.eqb status 200 || Z.eqb status 201); simpl; [done|]. by rewrite IH.
Qed.

(** X2.  [_jsonbin_put] returns [True] exactly when one of the next
    three answers of the store has status 200 or 201. *)
Theorem jsonbin_put_true_iff_one_of_three_succeeds bin key record w :
  (_jsonbin_put bin key record w).1 = true ↔ next_fail put_fails 3 (net w) = false.
Proof.
  unfold _jsonbin_put. rewrite jsonbin_put_loop_result.
  by destruct (next_fail put_fails 3 (net w)).
Qed.

Lemma jsonbin_get_loop_bounded n bin key w :
  ∃ k, (k ≤ n)%nat ∧
       net (jsonbin_get_loop n bin key w).2 = drop k (net w) ∧
       ∃ t, trace (jsonbin_get_loop n bin key w).2 = (trace w ++ t)%list ∧
            count_requests t = k ∧
            Forall (λ ev, ev = EvGet bin key ∨ ev = EvSleep 1) t.
Proof.
  revert w. induction n as [|n IH]; intros w.
  - exists 0%nat. split; [done|]. split; [by rewrite drop_0|].
    exists []. by rewrite app_nil_r.
  - cbn [jsonbin_get_loop]. unfold_monad.
    assert (∀ w1, net w1 = tail (net w) →
                  trace w1 = ((trace w ++ [EvGet bin key]) ++ [EvSleep 1])%list →
      ∃ k, (k ≤ S n)%nat ∧
        net (jsonbin_get_loop n bin key w1).2 = drop k (net w) ∧
        ∃ t, trace (jsonbin_get_loop n bin key w1).2 = (trace w ++ t)%list ∧
             count_requests t = k ∧
             Forall (λ ev, ev = EvGet bin key ∨ ev = EvSleep 1) t) as Hrec.
    { intros w1 Hnet Htr. destruct (IH w1) as (k & Hk & Hn & t & Ht & Hc & Hall).
      exists (S k). split; [lia|]. split; [by rewrite Hn, Hnet, drop_S_tail|].
      exists (EvGet bin key :: EvSleep 1 :: t).
      split; [by rewrite Ht, Htr, <- !app_assoc|]. split.
      - simpl. by rewrite Hc.
      - constructor; [by left|]. constructor; [by right|done]. }
    destruct (default ConnectionError (head (net w))) as [|status [|record]];
      try (by apply Hrec).
    destruct (Z.eqb status 200); [|by apply Hrec].
    exists 1%nat. split; [lia|]. split; [simpl; by rewrite drop_S_tail, drop_0|].
    exists [EvGet bin key]. split; [done|]. split; [done|].
    constructor; [by left|constructor].
Qed.

(** X3.  Whatever the store answers, [_jsonbin_get] makes at most three
    requests: it consumes that many answers, its trace grows by that
    many GET requests on the bin and otherwise only by one-second
    sleeps, and the module state and the tree are left alone. *)
Theorem jsonbin_get_at_most_three_requests bin key w :
  ∃ k, (k ≤ 3)%nat ∧
       net (_jsonbin_get bin key w).2 = drop k (net w) ∧
       store_only w (_jsonbin_get bin key w).2 ∧
       ∃ t, trace (_jsonbin_get bin key w).2 = (trace w ++ t)%list ∧
            count_requests t = k ∧
            Forall (λ ev, ev = EvGet bin key ∨ ev = EvSleep 1) t.
Proof.
  unfold _jsonbin_get, bind, ret.
  pose proof (jsonbin_get_loop_bounded 3 bin key w) as (k & Hk & Hn & Ht).
  pose proof (jsonbin_get_loop_store_only 3 bin key w) as Hs.
  destruct (jsonbin_get_loop 3 bin key w) as [r w1]. cbn [snd] in *.
  exists k. eauto.
Qed.

(** X4.  [load_guild_data] is served from the cache once it has run: a
    second call right after the first returns the same document and
    changes nothing, so it makes no request. *)
Theorem load_guild_data_twice E guild_id w :
  load_guild_data E guild_id (load_guild_data E guild_id w).2
  = load_guild_data E guild_id w.
Proof.
  pose proof (load_guild_data_cached E guild_id w) as Hc.
  destruct (load_guild_data E guild_id w) as [d w1]. cbn [fst snd] in *.
  by rewrite load_guild_data_eq, Hc.
Qed.

(** X5.  What [save_guild_data] was given is what [load_guild_data]
    returns next, without any request, whether the remote write
    succeeded or not. *)
Theorem load_after_save_guild_data E guild_id guild_data w :
  load_guild_data E guild_id (save_guild_data E guild_id guild_data w).2
  = (guild_data, (save_guild_data E guild_id guild_data w).2).
Proof.
  destruct (save_guild_data_cache E guild_id guild_data w) as [Hc _].
  by rewrite load_guild_data_eq, Hc, lookup_insert_eq.
Qed.

(** X6.  After [save_dynamic_command], whatever the store answered, the
    cached document of the guild and the in-memory map hold the same
    entry for the command; the other commands and the other keys of a
    document that was already cached are kept. *)
Theorem save_dynamic_command_document_and_map_agree E guild_id cmd_name code description w :
  ∃ d, guild_cache (save_dynamic_command E guild_id cmd_name code description w).2
         !! guild_id = Some d ∧
       dynamic_commands d ≫= (.!! cmd_name)
       = Some (CmdDict code (description_or description cmd_name)) ∧
       cached (save_dynamic_command E guild_id cmd_name code description w).2
         guild_id cmd_name
       = Some (CmdDict code (description_or description cmd_name)) ∧
       ∀ d0, guild_cache w !! guild_id = Some d0 →
             other_keys d = other_keys d0 ∧
             guild_bin_configs d = guild_bin_configs d0 ∧
             ∀ n, n ≠ cmd_name →
                  dynamic_commands d ≫= (.!! n) = dynamic_commands d0 ≫= (.!! n).
Proof.
  destruct (save_dynamic_command_cache E guild_id cmd_name code description w) as [Hmap _].
  unfold cached. rewrite Hmap, lookup_insert_eq. cbn [mbind option_bind].
  rewrite lookup_insert_eq.
  rewrite save_dynamic_command_eq. cbv zeta. rewrite cache_store_eq. cbn [snd].
  match goal with |- context [load_guild_data E guild_id ?w0] =>
    pose proof (load_guild_data_eq E guild_id w0) as Hload;
    destruct (load_guild_data E guild_id w0) as [d1 w1] end.
  match goal with |- context [save_guild_data E guild_id ?d' w1] =>
    destruct (save_guild_data_cache E guild_id d' w1) as [Hsave _];
    exists d' end.
  rewrite Hsave, lookup_insert_eq. split; [done|]. simpl.
  rewrite lookup_insert_eq. split; [done|]. split; [done|].
  intros d0 Hd0. simpl in Hload. rewrite Hd0 in Hload. injection Hload as -> _.
  split; [done|]. split; [done|]. intros n Hn.
  rewrite lookup_insert_ne by done. by destruct (dynamic_commands d0).
Qed.

Lemma delete_dynamic_command_from_store_document E guild_id cmd_name w :
  ∃ d, guild_cache (delete_dynamic_command_from_store E guild_id cmd_name w).2
         !! guild_id = Some d ∧
       dynamic_commands d ≫= (.!! cmd_name) = None.
Proof.
  rewrite delete_dynamic_command_from_store_eq.
  match goal with |- context [load_guild_data E guild_id ?w0] =>
    pose proof (load_guild_data_cached E guild_id w0) as Hload;
    destruct (load_guild_data E guild_id w0) as [d1 w1] end.
  cbn [fst snd] in Hload.
  destruct (dynamic_commands d1) as [cmds|] eqn:Hcmds.
  - match goal with |- context [save_guild_data E guild_id ?d' w1] =>
      destruct (save_guild_data_cache E guild_id d' w1) as [Hsave _];
      exists d' end.
    rewrite Hsave, lookup_insert_eq. split; [done|]. simpl. apply lookup_delete_eq.
  - exists d1. cbn [snd]. split; [done|]. by rewrite Hcmds.
Qed.

(** X7.  After [delete_dynamic_command_from_store], whatever the store
    answered and whether or not the command existed, the name is
    neither in the in-memory map nor in the cached document of the
    guild; in particular this undoes [save_dynamic_command]. *)
Theorem delete_dynamic_command_removes_from_map_and_document E guild_id cmd_name w :
  (cached (delete_dynamic_command_from_store E guild_id cmd_name w).2 guild_id cmd_name
   = None ∧
   ∃ d, guild_cache (delete_dynamic_command_from_store E guild_id cmd_name w).2
          !! guild_id = Some d ∧
        dynamic_commands d ≫= (.!! cmd_name) = None) ∧
  (∀ code description,
     let w1 := (save_dynamic_command E guild_id cmd_name code description w).2 in
     cached (delete_dynamic_command_from_store E guild_id cmd_name w1).2 guild_id cmd_name
     = None ∧
     ∀ n, n ≠ cmd_name →
          cached (delete_dynamic_command_from_store E guild_id cmd_name w1).2 guild_id n
          = cached w guild_id n).
Proof.
  assert (∀ w0 n,
    cached (delete_dynamic_command_from_store E guild_id cmd_name w0).2 guild_id n
    = if decide (n = cmd_name) then None else cached w0 guild_id n) as Hdel.
  { intros w0 n.
    destruct (delete_dynamic_command_from_store_cache E guild_id cmd_name w0) as [Hc _].
    unfold cached. rewrite Hc. apply cached_alter_delete. }
  split; [split|].
  - rewrite Hdel. by case_decide.
  - apply delete_dynamic_command_from_store_document.
  - intros code description w1. split.
    + rewrite Hdel. by case_decide.
    + intros n Hn. rewrite Hdel. case_decide; [done|].
      subst w1. unfold cached.
      destruct (save_dynamic_command_cache E guild_id cmd_name code description w)
        as [-> _].
      rewrite lookup_insert_eq. cbn [mbind option_bind].
      rewrite lookup_insert_ne by done.
      by destruct (dynamic_commands_cache w !! guild_id).
Qed.

(** X8.  When the cached document of the guild has no
    [dynamic_commands] key, [delete_dynamic_command_from_store] pops the
    name from the in-memory map, makes no request and returns [True]. *)
Theorem delete_without_dynamic_commands_key E guild_id cmd_name w d :
  guild_cache w !! guild_id = Some d →
  dynamic_commands d = None →
  delete_dynamic_command_from_store E guild_id cmd_name w =
    (true,
     {| dynamic_commands_cache :=
          alter (delete cmd_name) guild_id (dynamic_commands_cache w);
        guild_cache := guild_cache w; tree := tree w;
        net := net w; trace := trace w |}).
Proof.
  intros Hd Hnone.
  rewrite delete_dynamic_command_from_store_eq, load_guild_data_eq. simpl.
  by rewrite Hd, Hnone.
Qed.

Lemma delete_without_dynamic_commands_key_witness :
  delete_dynamic_command_from_store sample_env "T1" "ping"
    {| dynamic_commands_cache := {[ "T1" := {[ "ping" := ping_data ]} ]};
       guild_cache := {[ "T1" := empty_doc ]}; tree := ∅; net := []; trace := [] |}
  = (true,
     {| dynamic_commands_cache :=
          alter (delete "ping") "T1" {[ "T1" := {[ "ping" := ping_data ]} ]};
        guild_cache := {[ "T1" := empty_doc ]}; tree := ∅; net := []; trace := [] |}).
Proof.
  refine (delete_without_dynamic_commands_key sample_env "T1" "ping" _ empty_doc _ _);
    reflexivity.
Defined.

(** * Further properties of the validator *)

Lemma preorder_unfold n : preorder n = n :: flat_map preorder (iter_child_nodes n).
Proof.
  destruct n as [cls fields]. unfold iter_child_nodes. cbn [preorder node_fields].
  f_equal. induction fields as [|[k v] fields IH]; [done|].
  cbn [flat_map]. rewrite flat_map_app, <- IH. f_equal.
  destruct v as [c|items| |]; simpl; try done.
  - by rewrite app_nil_r.
  - induction items as [|[c|] items IHi]; simpl; [done| |done]. by rewrite IHi.
Qed.

Lemma first_refused_app l l' :
  first_refused (l ++ l') =
    match first_refused l with Some e => Some e | None => first_refused l' end.
Proof.
  induction l as [|d l IH]; simpl; [done|]. by destruct (node_check d).
Qed.

Lemma elem_of_preorder n d : d ∈ preorder n ↔ subnode d n.
Proof.
  split.
  - revert d. induction n as [n IH] using node_children_ind. intros d.
    rewrite preorder_unfold. intros Hd.
    apply elem_of_cons in Hd as [->|Hd]; [constructor|].
    apply list_elem_of_In, in_flat_map in Hd as (c & Hc & Hd).
    apply list_elem_of_In in Hc, Hd. eapply subnode_child; [done|]. by apply IH.
  - intros H. induction H as [n|d c n Hc _ IH]; rewrite preorder_unfold.
    + apply list_elem_of_here.
    + apply list_elem_of_further, list_elem_of_In, in_flat_map.
      exists c. split; by apply list_elem_of_In.
Qed.

Lemma visit_first_refused n : visit n = first_refused (preorder n).
Proof.
  induction n as [n IH] using node_children_ind.
  rewrite visit_unfold, preorder_unfold. cbn [first_refused].
  destruct (node_check n); [done|].
  induction (iter_child_nodes n) as [|c l IHl]; [done|].
  cbn [visit_all flat_map]. rewrite first_refused_app.
  rewrite <- (IH c) by apply list_elem_of_here.
  destruct (visit c); [done|].
  apply IHl. intros c' Hc'. apply IH. by apply list_elem_of_further.
Qed.

(** X9.  The visitor goes through the nodes in the order of
    [generic_visit] (a node, then its fields in order, depth first;
    [preorder] lists exactly the nodes of the tree).  Whatever the
    stack, it raises [RecursionError] or the exception of the first node
    it refuses in that order (none if it refuses none); on a stack that
    suffices for the tree it does the latter. *)
Theorem visit_reports_first_refused_node overflows above n :
  (visit_on_stack overflows above n = Some RecursionError ∨
   visit_on_stack overflows above n = Unsafe <$> first_refused (preorder n)) ∧
  (stack_suffices overflows above n = true →
   visit_on_stack overflows above n = Unsafe <$> first_refused (preorder n)) ∧
  (∀ d, d ∈ preorder n ↔ subnode d n).
Proof.
  rewrite <- visit_first_refused.
  split; [apply visit_on_stack_cases|].
  split; [apply visit_on_stack_suffices|]. intros d. apply elem_of_preorder.
Qed.

Lemma length_walk_queue todo : length (walk_queue todo) = sum_list_with size todo.
Proof.
  funelim (walk_queue todo); simp walk_queue; [done|].
  cbn [length sum_list_with].
  match goal with IH : length (walk_queue _) = _ |- _ => rewrite IH end.
  rewrite sum_list_with_app, (size_children n). lia.
Qed.

(** [ast.walk] starts with the tree itself and yields as many nodes as
    the tree has: each node once. *)
Lemma walk_yields_each_node_once tree :
  head (walk tree) = Some tree ∧ length (walk tree) = size tree.
Proof.
  unfold walk. split.
  - by simp walk_queue.
  - rewrite length_walk_queue. simpl. lia.
Qed.

(** X10.  What the validator admits has no call to a bare deny-listed
    name and no dunder attribute access anywhere in its tree.  A source
    that parses and has a dunder attribute access somewhere is never
    admitted: its validation raises [RecursionError] or rejects it with
    a disallowed-construct error, and on a stack that suffices for the
    tree it rejects it. *)
Theorem admitted_source_has_no_refused_node E code tree :
  ast_parse E (dedent E code) = inr tree →
  (validate_on_stack E code = None →
   ∀ d, subnode d tree → (∀ p, ¬ denied_call d p) ∧ ¬ dunder_access d) ∧
  (∀ d, subnode d tree → dunder_access d →
        (validate_on_stack E code = Some RecursionError ∨
         ∃ e, validate_on_stack E code = Some (Unsafe e) ∧
              classify e = DisallowedConstruct) ∧
        (stack_suffices (recursion_limit_hit E) [] tree = true →
         ∃ e, validate_on_stack E code = Some (Unsafe e) ∧
              classify e = DisallowedConstruct)).
Proof.
  intros Hparse.
  assert (∀ d, subnode d tree → dunder_access d →
            ∃ e, validate_user_code E code = Some e ∧ classify e = DisallowedConstruct)
    as Hdunder.
  { intros d Hd Hdun. rewrite (validate_parsed _ _ _ Hparse).
    destruct (visit tree) as [e|] eqn:Hv.
    - exists e. split; [done|].
      by destruct (visit_raises_disallowed _ _ Hv) as [(? & ? & -> & _)|[-> _]].
    - rewrite visit_none_iff in Hv. specialize (Hv d Hd).
      apply node_check_dunder in Hdun. congruence. }
  split.
  - intros Hnone d Hd.
    assert (visit tree = None) as Hv.
    { rewrite (validate_on_stack_parsed _ _ _ Hparse) in Hnone.
      destruct (visit_on_stack_cases (recursion_limit_hit E) [] tree) as [Hr|Hs];
        [by rewrite Hr in Hnone|].
      rewrite Hs in Hnone. by destruct (visit tree). }
    rewrite visit_none_iff in Hv. specialize (Hv d Hd). split.
    + intros p Hp. apply node_check_call in Hp. congruence.
    + intros Hdun. apply node_check_dunder in Hdun. congruence.
  - intros d Hd Hdun. destruct (Hdunder d Hd Hdun) as (e & Hval & He). split.
    + destruct (validate_on_stack_cases E code) as [Hrec|Hsame]; [by left|].
      right. exists e. by rewrite Hsame, Hval.
    + intros Hfits. exists e.
      by rewrite (validate_on_stack_suffices _ _ _ Hparse Hfits), Hval.
Qed.

Lemma admitted_source_has_no_refused_node_witness :
  ∃ e, validate_on_stack sample_env src_dunder_eval = Some (Unsafe e) ∧
       classify e = DisallowedConstruct.
Proof.
  refine (proj2 (proj2 (admitted_source_has_no_refused_node
                          sample_env src_dunder_eval tree_dunder_eval _)
                   (Attribute (Name "ctx" Load) "__class__" Load) _ _) _).
  - vm_compute. reflexivity.
  - apply elem_of_walk. elem_of_concrete.
  - split; [reflexivity|]. eexists. split; reflexivity.
  - vm_compute. reflexivity.
Defined.

(** * Further properties of the invocation callback *)

(** X12.  A handler that returns, or that runs out of its thirty
    seconds, on an interaction it has not answered and that accepts
    messages: a truthy result is sent as its [str], a falsy one is not
    sent, and a timeout is answered with the timeout notice; the
    callback returns normally in the three cases. *)
Theorem callback_answers_result_or_timeout run i i1 :
  is_done i1 = false → send_raises i1 = false →
  (∀ s, call run i = (Returns (Some s), i1) →
        callback run i
        = (Returned, {| is_done := true; sent := sent i1 ++ [s]; send_raises := false |})) ∧
  (call run i = (Returns None, i1) → callback run i = (Returned, i1)) ∧
  (call run i = (Hangs, i1) →
   callback run i
   = (Returned, {| is_done := true; sent := sent i1 ++ ["⏱️ Command timed out."];
                   send_raises := false |})).
Proof.
  intros Hd Hs. unfold callback, callback_try, send_message.
  split; [|split]; [intros s Hc|intros Hc|intros Hc]; rewrite Hc; simpl;
    rewrite ?Hd, ?Hs; simpl; rewrite ?Hd, ?Hs; done.
Qed.

Lemma callback_answers_result_or_timeout_witness :
  callback pong_run fresh_interaction
  = (Returned, {| is_done := true; sent := ["pong"]; send_raises := false |}).
Proof.
  refine (proj1 (callback_answers_result_or_timeout pong_run fresh_interaction
                   fresh_interaction _ _) "pong" _); reflexivity.
Defined.

(** * Further properties of the registry *)

Lemma length_substring_0 n s : (String.length (String.substring 0 n s) ≤ n)%nat.
Proof.
  revert s. induction n as [|n IH]; intros [|c s]; simpl; try lia.
  specialize (IH s). lia.
Qed.

Lemma substring_0_all n s : (String.length s ≤ n)%nat → String.substring 0 n s = s.
Proof.
  revert s. induction n as [|n IH]; intros [|c s]; simpl; try done; try lia.
  intros H. f_equal. apply IH. lia.
Qed.

Lemma cached_store (m : gmap string (gmap string cmd_data)) g n data g' n' :
  <[g := <[n := data]> (default ∅ (m !! g))]> m !! g' ≫= (.!! n')
  = if decide (g' = g ∧ n' = n) then Some data else m !! g' ≫= (.!! n').
Proof.
  destruct (decide (g' = g)) as [->|Hg].
  - rewrite lookup_insert_eq. cbn [mbind option_bind].
    destruct (decide (n' = n)) as [->|Hn].
    + rewrite lookup_insert_eq. by rewrite decide_True.
    + rewrite lookup_insert_ne by done. rewrite decide_False by (by intros [_ ?]).
      by destruct (m !! g).
  - rewrite lookup_insert_ne by done. rewrite decide_False; [done|]. by intros [? _].
Qed.

Section RegistryMore.
Context (E : Env).

Lemma register_dynamic_command_succeeded guild_id cmd_name code description w :
  (register_dynamic_command E guild_id cmd_name code description w).1.1 = true →
  validate_user_code E code = None ∧
  add_command_check (tree (without_command w guild_id cmd_name)) guild_id cmd_name = None ∧
  ∃ run, exec_code E (dedent E code) = ExecDone (Some (Callable run)) ∧
    register_dynamic_command E guild_id cmd_name code description w =
      ((true, None),
       {| dynamic_commands_cache :=
            <[guild_id := <[cmd_name := CmdDict code (tree_description description cmd_name)]>
                            (default ∅ (dynamic_commands_cache w !! guild_id))]>
              (dynamic_commands_cache w);
          guild_cache := guild_cache w;
          tree := <[(guild_id, cmd_name) :=
                      {| cmd_name := cmd_name;
                         cmd_description := tree_description description cmd_name;
                         cmd_run := run |}]> (tree w);
          net := net w; trace := trace w |}).
Proof.
  rewrite register_dynamic_command_eq.
  destruct (validate_user_code E code) eqn:Hv; [done|].
  destruct (exec_code E (dedent E code)) as [|[[|run]|]] eqn:Hx; try done.
  cbv zeta.
  destruct (add_command_check (tree (without_command w guild_id cmd_name))
              guild_id cmd_name) eqn:Ha; [done|].
  intros _. split; [done|]. split; [done|]. exists run. split; [done|].
  rewrite without_command_eq. unfold tree_description. simpl.
  by rewrite insert_delete_eq.
Qed.

End RegistryMore.

(** X15.  A successful rename moves the command: the new name holds the
    source of the old one, unchanged, with the description of the old
    entry (or the default one for the new name); the new name is in the
    tree; the old name, when it differs, is in neither the in-memory map
    nor the tree; the other names of the guild are untouched; and the
    synchronisation of the tree is requested last. *)
Theorem successful_rename_moves_the_command E T old new w :
  (rename_command E true T old new w).1 = Renamed old new →
  ∃ data, cached w T old = Some data ∧
    cached (rename_command E true T old new w).2 T new
    = Some (CmdDict (entry_code data)
              (description_or (Some (entry_description data new)) new)) ∧
    is_Some (tree (rename_command E true T old new w).2 !! (T, new)) ∧
    (new ≠ old →
     cached (rename_command E true T old new w).2 T old = None ∧
     tree (rename_command E true T old new w).2 !! (T, old) = None) ∧
    (∀ n, n ≠ old → n ≠ new →
          cached (rename_command E true T old new w).2 T n = cached w T n ∧
          tree (rename_command E true T old new w).2 !! (T, n) = tree w !! (T, n)) ∧
    ∃ t, trace (rename_command E true T old new w).2 = (t ++ [EvSync])%list.
Proof.
  rewrite rename_command_eq.
  destruct (cached w T old) as [data|] eqn:Hold; [|done]. cbv zeta.
  pose proof (delete_dynamic_command_from_store_cache E T old (without_command w T old))
    as [Hc Ht].
  destruct (delete_dynamic_command_from_store E T old (without_command w T old))
    as [ok w2].
  cbn [snd] in Hc, Ht. rewrite without_command_eq in Hc, Ht. simpl in Hc, Ht.
  change (match data with CmdDict c _ => c | CmdStr c => c end) with (entry_code data).
  change (match data with
          | CmdDict _ d => d
          | CmdStr _ => "Dynamic command: " ++ new
          end) with (entry_description data new).
  pose proof (register_dynamic_command_succeeded E T new (entry_code data)
                (Some (entry_description data new)) w2) as Hreg.
  destruct (register_dynamic_command E T new (entry_code data)
              (Some (entry_description data new)) w2) as [[success error] w3].
  cbn [fst snd] in *. destruct success; [|done].
  destruct (Hreg eq_refl) as (_ & _ & run & _ & Heq). injection Heq as _ Hw3.
  pose proof (save_dynamic_command_cache E T new (entry_code data)
                (Some (entry_description data new)) w3) as [Hsc Hst].
  destruct (save_dynamic_command E T new (entry_code data)
              (Some (entry_description data new)) w3) as [saved w4].
  cbn [fst snd] in *. intros _. exists data. split; [done|].
  set (w5 := with_store w4 (net w4) (trace w4 ++ [EvSync])).
  assert (∀ n, cached w5 T n =
               if decide (n = new)
               then Some (CmdDict (entry_code data)
                            (description_or (Some (entry_description data new)) new))
               else if decide (n = old) then None else cached w T n) as Hcached.
  { intros n. unfold cached, w5. cbn [with_store dynamic_commands_cache].
    rewrite Hsc, cached_store.
    destruct (decide (n = new)) as [->|Hn].
    - by rewrite decide_True.
    - rewrite decide_False by (by intros [_ ?]).
      rewrite Hw3. cbn [dynamic_commands_cache]. rewrite cached_store.
      rewrite decide_False by (by intros [_ ?]).
      rewrite Hc. apply cached_alter_delete. }
  assert (∀ n, tree w5 !! (T, n) =
               if decide (n = new) then tree w3 !! (T, new)
               else if decide (n = old) then None else tree w !! (T, n)) as Htree.
  { intros n. unfold w5. cbn [with_store tree].
    rewrite Hst. destruct (decide (n = new)) as [->|Hn]; [done|].
    rewrite Hw3. cbn [tree]. rewrite lookup_insert_ne by congruence. rewrite Ht.
    destruct (decide (n = old)) as [->|Hn'].
    - apply lookup_delete_eq.
    - apply lookup_delete_ne. congruence. }
  split; [|split; [|split; [|split]]].
  - rewrite Hcached. by rewrite decide_True.
  - rewrite Htree, decide_True by done. rewrite Hw3. cbn [tree].
    rewrite lookup_insert_eq. by eexists.
  - intros Hne. rewrite Hcached, Htree.
    rewrite !(decide_False (P := old = new)) by congruence. by rewrite !decide_True.
  - intros n Hn Hn'. rewrite Hcached, Htree. by rewrite !decide_False.
  - by eexists.
Qed.

Lemma successful_rename_moves_the_command_witness :
  ∃ data, cached world_ping "T1" "ping" = Some data ∧
    cached (rename_command sample_env true "T1" "ping" "pong" world_ping).2 "T1" "pong"
    = Some (CmdDict (entry_code data)
              (description_or (Some (entry_description data "pong")) "pong")) ∧
    is_Some (tree (rename_command sample_env true "T1" "ping" "pong" world_ping).2
               !! ("T1", "pong")) ∧
    ("pong" ≠ "ping" →
     cached (rename_command sample_env true "T1" "ping" "pong" world_ping).2 "T1" "ping"
     = None ∧
     tree (rename_command sample_env true "T1" "ping" "pong" world_ping).2
       !! ("T1", "ping") = None) ∧
    (∀ n, n ≠ "ping" → n ≠ "pong" →
          cached (rename_command sample_env true "T1" "ping" "pong" world_ping).2 "T1" n
          = cached world_ping "T1" n ∧
          tree (rename_command sample_env true "T1" "ping" "pong" world_ping).2
            !! ("T1", n) = tree world_ping !! ("T1", n)) ∧
    ∃ t, trace (rename_command sample_env true "T1" "ping" "pong" world_ping).2
         = (t ++ [EvSync])%list.
Proof.
  apply (successful_rename_moves_the_command sample_env "T1" "ping" "pong" world_ping).
  vm_compute. reflexivity.
Defined.

(** X16.  [rename_command] answers that the command is not found
    exactly when the old name is not in the in-memory map of the guild,
    whatever the tree holds, and then it changes nothing. *)
Theorem rename_not_found_iff_not_in_memory E T old new w :
  ((rename_command E true T old new w).1 = NotFound old ↔ cached w T old = None) ∧
  (cached w T old = None → (rename_command E true T old new w).2 = w).
Proof.
  rewrite rename_command_eq.
  destruct (cached w T old) as [data|] eqn:Hold; [|done]. cbv zeta.
  split; [|done]. split; [|done].
  destruct (delete_dynamic_command_from_store E T old (without_command w T old))
    as [ok w2].
  match goal with |- context [register_dynamic_command E T new ?c ?d w2] =>
    destruct (register_dynamic_command E T new c d w2) as [[[|] error] w3] end;
    cbn [fst snd]; [|done].
  match goal with |- context [save_dynamic_command E T new ?c ?d w3] =>
    by destruct (save_dynamic_command E T new c d w3) end.
Qed.

Section DescriptionAndCreation.
Context (E : Env).

Lemma rename_command_description_eq guild_id command_name new_description w :
  rename_command_description E true guild_id command_name new_description w =
    match cached w guild_id command_name with
    | None => (DescNotFound command_name, w)
    | Some data =>
        let (r, w3) :=
          register_dynamic_command E guild_id command_name (entry_code data)
            (Some new_description) (without_command w guild_id command_name) in
        if r.1 then
          let (_, w4) := save_dynamic_command E guild_id command_name (entry_code data)
                           (Some new_description) w3 in
          (DescriptionUpdated command_name, with_store w4 (net w4) (trace w4 ++ [EvSync]))
        else (DescRegistrationFailed r.2, w3)
    end.
Proof.
  unfold rename_command_description, cached, without_command, tree_get_command,
    tree_remove_command, sync_all_guild_commands, with_tree, entry_code.
  unfold_monad. cbn [negb].
  destruct (dynamic_commands_cache w !! guild_id ≫= (.!! command_name)) as [data|];
    [|done].
  destruct (tree w !! (guild_id, command_name));
    match goal with |- context [register_dynamic_command E _ _ ?c ?d ?w'] =>
      destruct (register_dynamic_command E guild_id command_name c d w')
        as [[[|] err] w3] end;
    cbn [fst snd negb]; try done;
    match goal with |- context [save_dynamic_command E _ _ ?c ?d ?w'] =>
      by destruct (save_dynamic_command E guild_id command_name c d w') end.
Qed.

Lemma describe_command_eq guild_id cmd_name code cmd_desc w :
  describe_command E true guild_id (cmd_name, code, cmd_desc) w =
    let (config, w1) := get_guild_bin_config E guild_id w in
    match config with
    | None => (NeedsSetup, w1)
    | Some _ =>
        if str_falsy cmd_name || str_falsy code then (GenerationFailed cmd_desc, w1) else
        let (r, w2) := register_dynamic_command E guild_id (default "" cmd_name)
                         (default "" code) (Some cmd_desc) w1 in
        if r.1 then
          let (saved, w3) := save_dynamic_command E guild_id (default "" cmd_name)
                               (default "" code) (Some cmd_desc) w2 in
          if saved
          then (Created (default "" cmd_name),
                with_store w3 (net w3) (trace w3 ++ [EvSync]))
          else (CreatedNotSaved, w3)
        else (CommandError r.2, w2)
    end.
Proof.
  unfold describe_command, sync_all_guild_commands. unfold_monad. cbn [negb].
  destruct (get_guild_bin_config E guild_id w) as [[cfg|] w1]; [|done].
  destruct (str_falsy cmd_name || str_falsy code); [done|].
  match goal with |- context [register_dynamic_command E _ ?n ?c ?d ?w'] =>
    destruct (register_dynamic_command E guild_id n c d w') as [[[|] err] w2] end;
    cbn [fst snd negb]; [|done].
  match goal with |- context [save_dynamic_command E _ ?n ?c ?d ?w'] =>
    by destruct (save_dynamic_command E guild_id n c d w') as [[|] w3] end.
Qed.

Lemma create_command_eq lower guild_id filename content w :
  create_command E lower true guild_id filename content w =
    let (config, w1) := get_guild_bin_config E guild_id w in
    match config with
    | None => (NeedsSetup, w1)
    | Some _ =>
        if endswith filename ".py" then
          match content with
          | None => (CreateError, w1)
          | Some code =>
              let cmd_name := lower (rsplit_dot_head filename) in
              let (r, w2) := register_dynamic_command E guild_id cmd_name code None w1 in
              if r.1 then
                let (saved, w3) := save_dynamic_command E guild_id cmd_name code None w2 in
                if saved
                then (Created cmd_name, with_store w3 (net w3) (trace w3 ++ [EvSync]))
                else (CreatedNotSaved, w3)
              else (CommandError r.2, w2)
          end
        else (NotPyFile, w1)
    end.
Proof.
  unfold create_command, sync_all_guild_commands. unfold_monad. cbn [negb].
  destruct (get_guild_bin_config E guild_id w) as [[cfg|] w1]; [|done].
  destruct (endswith filename ".py"); [|done]. cbn [negb].
  destruct content as [code|]; [|done].
  match goal with |- context [register_dynamic_command E _ ?n ?c ?d ?w'] =>
    destruct (register_dynamic_command E guild_id n c d w') as [[[|] err] w2] end;
    cbn [fst snd negb]; [|done].
  match goal with |- context [save_dynamic_command E _ ?n ?c ?d ?w'] =>
    by destruct (save_dynamic_command E guild_id n c d w') as [[|] w3] end.
Qed.

(** The creation commands register, then save: the in-memory entry
    ends with the description as given (or the default one), not cut,
    while the tree keeps the one cut at 100 characters. *)
Lemma register_then_save guild_id cmd_name code description w :
  (register_dynamic_command E guild_id cmd_name code description w).1.1 = true →
  let w2 := (register_dynamic_command E guild_id cmd_name code description w).2 in
  let w3 := (save_dynamic_command E guild_id cmd_name code description w2).2 in
  cached w3 guild_id cmd_name
  = Some (CmdDict code (description_or description cmd_name)) ∧
  (∃ run, tree w3 !! (guild_id, cmd_name)
          = Some {| cmd_name := cmd_name;
                    cmd_description := tree_description description cmd_name;
                    cmd_run := run |}) ∧
  (∀ g n, (g, n) ≠ (guild_id, cmd_name) →
          cached w3 g n = cached w g n ∧ tree w3 !! (g, n) = tree w !! (g, n)).
Proof.
  intros Hok. cbv zeta.
  destruct (register_dynamic_command_succeeded E _ _ _ _ _ Hok)
    as (_ & _ & run & _ & ->). cbn [snd].
  match goal with |- context [save_dynamic_command E _ _ _ _ ?w2] =>
    destruct (save_dynamic_command_cache E guild_id cmd_name code description w2)
      as [Hc Ht] end.
  unfold cached. rewrite Hc, Ht. cbn [dynamic_commands_cache tree]. split; [|split].
  - rewrite cached_store. by rewrite decide_True.
  - exists run. apply lookup_insert_eq.
  - intros g n Hne. rewrite !cached_store.
    rewrite !decide_False by (intros [-> ->]; done).
    split; [done|]. by apply lookup_insert_ne.
Qed.

End DescriptionAndCreation.

(** X17.  [rename_command_description] removes the command from the
    tree before it registers it again.  When that registration fails,
    the in-memory map is exactly what it was (the command is still
    listed, with its old description) but the command is no longer in
    the tree.  When it succeeds, the command keeps its source, the
    in-memory map holds the new description and the tree the new
    description cut at 100 characters. *)
Theorem rename_command_description_outcomes E T N new_description w :
  (∀ err, (rename_command_description E true T N new_description w).1
          = DescRegistrationFailed err →
     dynamic_commands_cache (rename_command_description E true T N new_description w).2
     = dynamic_commands_cache w ∧
     is_Some (cached w T N) ∧
     tree (rename_command_description E true T N new_description w).2 !! (T, N) = None) ∧
  ((rename_command_description E true T N new_description w).1 = DescriptionUpdated N →
   ∃ data, cached w T N = Some data ∧
     cached (rename_command_description E true T N new_description w).2 T N
     = Some (CmdDict (entry_code data) (description_or (Some new_description) N)) ∧
     ∃ run, tree (rename_command_description E true T N new_description w).2 !! (T, N)
            = Some {| cmd_name := N;
                      cmd_description := tree_description (Some new_description) N;
                      cmd_run := run |}).
Proof.
  rewrite rename_command_description_eq.
  destruct (cached w T N) as [data|] eqn:Hold; [|done].
  pose proof (register_dynamic_command_failed E T N (entry_code data)
                (Some new_description) (without_command w T N)) as Hfail.
  pose proof (register_then_save E T N (entry_code data)
                (Some new_description) (without_command w T N)) as Hok.
  destruct (register_dynamic_command E T N (entry_code data)
              (Some new_description) (without_command w T N)) as [[success error] w3].
  cbn [fst snd] in *. destruct success.
  - specialize (Hok eq_refl). cbv zeta in Hok. destruct Hok as (Hc & Hrun & _).
    destruct (save_dynamic_command E T N (entry_code data) (Some new_description) w3)
      as [saved w4]. cbn [fst snd] in *.
    split; [done|]. intros _. exists data. split; [done|]. split; [done|]. done.
  - split; [|done]. intros err _. split; [|split; [done|]].
    + destruct (Hfail eq_refl) as [[_ ->]|(_ & _ & _ & ->)];
        rewrite without_command_eq; done.
    + destruct (Hfail eq_refl) as [[_ ->]|(_ & _ & _ & ->)];
        rewrite without_command_eq; simpl; rewrite ?lookup_delete_eq; done.
Qed.

(** X18.  In [/describe_command] and [/create_command] a command is
    registered, then saved: after a successful registration followed by
    [save_dynamic_command], the in-memory map holds the command with
    the description as given (or the default one), not cut, the tree
    holds it with the description cut at 100 characters, and every
    other name is untouched, whatever the store answered. *)
Theorem register_then_save_state E guild_id cmd_name code description w :
  (register_dynamic_command E guild_id cmd_name code description w).1.1 = true →
  let w2 := (register_dynamic_command E guild_id cmd_name code description w).2 in
  let w3 := (save_dynamic_command E guild_id cmd_name code description w2).2 in
  cached w3 guild_id cmd_name
  = Some (CmdDict code (description_or description cmd_name)) ∧
  (∃ run, tree w3 !! (guild_id, cmd_name)
          = Some {| cmd_name := cmd_name;
                    cmd_description := tree_description description cmd_name;
                    cmd_run := run |}) ∧
  (∀ g n, (g, n) ≠ (guild_id, cmd_name) →
          cached w3 g n = cached w g n ∧ tree w3 !! (g, n) = tree w !! (g, n)).
Proof. apply register_then_save. Qed.

Lemma register_then_save_state_witness :
  cached (save_dynamic_command sample_env "T1" "ping" src_pong (Some "pings")
            (register_dynamic_command sample_env "T1" "ping" src_pong (Some "pings")
               world_empty).2).2 "T1" "ping"
  = Some (CmdDict src_pong (description_or (Some "pings") "ping")).
Proof.
  refine (proj1 (register_then_save_state sample_env "T1" "ping" src_pong (Some "pings")
                   world_empty _)).
  vm_compute. reflexivity.
Defined.

Lemma store_only_kept w w' : store_only w w' → registry_kept w w'.
Proof. by intros (? & ? & ?). Qed.

Lemma registry_kept_compose w1 w2 w3 :
  registry_kept w1 w2 → registry_kept w2 w3 → registry_kept w1 w3.
Proof. intros [? ?] [? ?]. split; congruence. Qed.

Lemma before_last_dot_py base : before_last_dot (base ++ ".py") = Some base.
Proof.
  induction base as [|c base IH]; [reflexivity|]. simpl. by rewrite IH.
Qed.

Lemma endswith_py base : endswith (base ++ ".py") ".py" = true.
Proof.
  induction base as [|c base IH]; [reflexivity|].
  change (String c base +:+ ".py") with (String c (base +:+ ".py")).
  cbn [endswith]. rewrite IH. apply orb_true_r.
Qed.

(** X19.  [/describe_command] asks for the setup exactly when the guild
    has no bin configuration, and then, as when the generation gave no
    name or no code, it leaves the in-memory map and the tree alone; a
    failed registration leaves the in-memory map alone; and when it
    answers that the command was created, saved or not, the command is
    registered under the generated name, in the in-memory map with the
    generated source and description, and in the tree. *)
Theorem describe_command_outcomes E guild_id cmd_name code cmd_desc w :
  let r := describe_command E true guild_id (cmd_name, code, cmd_desc) w in
  (r.1 = NeedsSetup ↔ (get_guild_bin_config E guild_id w).1 = None) ∧
  (r.1 = NeedsSetup ∨ r.1 = GenerationFailed cmd_desc → registry_kept w r.2) ∧
  (∀ err, r.1 = CommandError err →
          dynamic_commands_cache r.2 = dynamic_commands_cache w) ∧
  (r.1 = CreatedNotSaved ∨ (∃ n, r.1 = Created n) →
   ∃ n c, cmd_name = Some n ∧ code = Some c ∧
          cached r.2 guild_id n = Some (CmdDict c (description_or (Some cmd_desc) n)) ∧
          is_Some (tree r.2 !! (guild_id, n))).
Proof.
  cbv zeta. rewrite describe_command_eq.
  pose proof (get_guild_bin_config_store_only E guild_id w) as Hcfg.
  destruct (get_guild_bin_config E guild_id w) as [[cfg|] w1]; cbn [fst snd] in *.
  2:{ split; [done|]. split; [intros _; by apply store_only_kept|].
      split; [done|]. by intros [?|[? ?]]. }
  destruct Hcfg as (Hc1 & _ & Ht1).
  destruct (str_falsy cmd_name || str_falsy code) eqn:Hfalsy.
  { cbn [fst snd]. split; [done|]. split; [intros _; by split|].
    split; [done|]. by intros [?|[? ?]]. }
  apply orb_false_iff in Hfalsy as [Hn Hcode].
  destruct cmd_name as [n|]; [|done]. destruct code as [c|]; [|done].
  cbn [from_option id].
  pose proof (register_dynamic_command_failed E guild_id n c (Some cmd_desc) w1) as Hfail.
  pose proof (register_then_save E guild_id n c (Some cmd_desc) w1) as Hok.
  destruct (register_dynamic_command E guild_id n c (Some cmd_desc) w1)
    as [[success error] w2].
  cbn [fst snd] in *. destruct success.
  - specialize (Hok eq_refl). cbv zeta in Hok. destruct Hok as (Hcached & [run Hrun] & _).
    destruct (save_dynamic_command E guild_id n c (Some cmd_desc) w2) as [[|] w3];
      cbn [fst snd] in *.
    + split; [done|]. split; [by intros [?|?]|]. split; [done|]. intros _.
      exists n, c. split; [done|]. split; [done|]. split; [done|].
      unfold with_store. cbn [tree]. rewrite Hrun. by eexists.
    + split; [done|]. split; [by intros [?|?]|]. split; [done|]. intros _.
      exists n, c. split; [done|]. split; [done|]. split; [done|].
      rewrite Hrun. by eexists.
  - split; [done|]. split; [by intros [?|?]|]. split; [|by intros [?|[? ?]]].
    intros err _. rewrite <- Hc1.
    by destruct (Hfail eq_refl) as [[_ ->]|(_ & _ & _ & ->)].
Qed.

(** X20.  [/create_command] asks for the setup when the guild has no bin
    configuration, refuses a file whose name does not end in [.py], and
    fails on a content it cannot decode, and in these cases leaves the
    in-memory map and the tree alone; a failed registration leaves the
    in-memory map alone; when it answers that the command was created,
    saved or not, the command is registered under the lower-cased file
    name without its extension (for [base.py], [lower base], dots in
    [base] included), with the uploaded source and the default
    description. *)
Theorem create_command_outcomes E lower guild_id filename content w :
  let r := create_command E lower true guild_id filename content w in
  let n := lower (rsplit_dot_head filename) in
  (r.1 = NeedsSetup ∨ r.1 = NotPyFile ∨ r.1 = CreateError → registry_kept w r.2) ∧
  (r.1 = NotPyFile → endswith filename ".py" = false) ∧
  (∀ err, r.1 = CommandError err →
          dynamic_commands_cache r.2 = dynamic_commands_cache w) ∧
  (∀ n', r.1 = Created n' → n' = n) ∧
  (r.1 = CreatedNotSaved ∨ r.1 = Created n →
   ∃ c, content = Some c ∧ endswith filename ".py" = true ∧
        cached r.2 guild_id n = Some (CmdDict c ("Dynamic command: " ++ n)) ∧
        is_Some (tree r.2 !! (guild_id, n))) ∧
  (∀ base, endswith (base ++ ".py") ".py" = true ∧
           rsplit_dot_head (base ++ ".py") = base).
Proof.
  cbv zeta. rewrite create_command_eq.
  assert (∀ base, endswith (base ++ ".py") ".py" = true ∧
                  rsplit_dot_head (base ++ ".py") = base) as Hname.
  { intros base. split; [apply endswith_py|].
    unfold rsplit_dot_head. by rewrite before_last_dot_py. }
  pose proof (get_guild_bin_config_store_only E guild_id w) as Hcfg.
  destruct (get_guild_bin_config E guild_id w) as [[cfg|] w1]; cbn [fst snd] in *.
  2:{ split; [intros _; by apply store_only_kept|]. split; [done|]. split; [done|].
      split; [done|]. split; [by intros [?|?]|done]. }
  destruct (endswith filename ".py") eqn:Hpy.
  2:{ cbn [fst snd]. split; [intros _; by apply store_only_kept|]. split; [done|].
      split; [done|]. split; [done|]. split; [by intros [?|?]|done]. }
  destruct content as [c|].
  2:{ cbn [fst snd]. split; [intros _; by apply store_only_kept|]. split; [done|].
      split; [done|]. split; [done|]. split; [by intros [?|?]|done]. }
  destruct Hcfg as (Hc1 & _ & Ht1). cbv zeta.
  set (n := lower (rsplit_dot_head filename)).
  pose proof (register_dynamic_command_failed E guild_id n c None w1) as Hfail.
  pose proof (register_then_save E guild_id n c None w1) as Hok.
  destruct (register_dynamic_command E guild_id n c None w1) as [[success error] w2].
  cbn [fst snd] in *. destruct success.
  - specialize (Hok eq_refl). cbv zeta in Hok. destruct Hok as (Hcached & [run Hrun] & _).
    destruct (save_dynamic_command E guild_id n c None w2) as [[|] w3];
      cbn [fst snd] in *.
    + split; [by intros [?|[?|?]]|]. split; [done|]. split; [done|].
      split; [by intros n' [= <-]|]. split; [|done]. intros _.
      exists c. split; [done|]. split; [done|]. split; [done|].
      unfold with_store. cbn [tree]. rewrite Hrun. by eexists.
    + split; [by intros [?|[?|?]]|]. split; [done|]. split; [done|].
      split; [done|]. split; [|done]. intros _.
      exists c. split; [done|]. split; [done|]. split; [done|].
      rewrite Hrun. by eexists.
  - split; [by intros [?|[?|?]]|]. split; [done|]. split.
    + intros err _. rewrite <- Hc1.
      by destruct (Hfail eq_refl) as [[_ ->]|(_ & _ & _ & ->)].
    + split; [done|]. split; [by intros [?|?]|done].
Qed.

(** * Further properties of the settings commands *)



Section Settings.
Context (E : Env).

(** [guild_cache.get(gid) or await load_guild_data(gid)] returns what
    [load_guild_data] returns: a cached document that is empty is
    looked up again, and found in the cache. *)
Lemma cached_or_load_eq gid w : cached_or_load E gid w = load_guild_data E gid w.
Proof.
  unfold cached_or_load. unfold_monad. rewrite load_guild_data_eq.
  destruct (guild_cache w !! gid) as [d|] eqn:Hd; [|by rewrite load_guild_data_eq, Hd].
  destruct (doc_truthy d); [done|]. by rewrite load_guild_data_eq, Hd.
Qed.

Lemma set_setting_eq gid key value w :
  set_setting E true gid key value w =
    let (d, w1) := load_guild_data E gid w in
    (SettingsUpdated, (save_guild_data E gid (set_key d key value) w1).2).
Proof.
  unfold set_setting. cbn [negb]. unfold bind at 1. rewrite cached_or_load_eq.
  destruct (load_guild_data E gid w) as [d w1]. unfold bind, ret.
  by destruct (save_guild_data E gid (set_key d key value) w1).
Qed.

Lemma pop_setting_eq gid key w :
  pop_setting E true gid key w =
    let (d, w1) := load_guild_data E gid w in
    (SettingsUpdated, (save_guild_data E gid (pop_key d key) w1).2).
Proof.
  unfold pop_setting. cbn [negb]. unfold bind at 1. rewrite cached_or_load_eq.
  destruct (load_guild_data E gid w) as [d w1]. unfold bind, ret.
  by destruct (save_guild_data E gid (pop_key d key) w1).
Qed.

Lemma set_setting_document gid key value w :
  guild_cache (set_setting E true gid key value w).2 !! gid
  = Some (set_key (load_guild_data E gid w).1 key value) ∧
  registry_kept w (set_setting E true gid key value w).2.
Proof.
  rewrite set_setting_eq.
  pose proof (load_guild_data_kept E gid w) as Hl.
  destruct (load_guild_data E gid w) as [d w1]. cbn [fst snd] in *.
  destruct (save_guild_data_cache E gid (set_key d key value) w1) as [Hc Hk].
  split; [by rewrite Hc, lookup_insert_eq|]. by eapply registry_kept_compose.
Qed.

Lemma pop_setting_document gid key w :
  guild_cache (pop_setting E true gid key w).2 !! gid
  = Some (pop_key (load_guild_data E gid w).1 key) ∧
  registry_kept w (pop_setting E true gid key w).2.
Proof.
  rewrite pop_setting_eq.
  pose proof (load_guild_data_kept E gid w) as Hl.
  destruct (load_guild_data E gid w) as [d w1]. cbn [fst snd] in *.
  destruct (save_guild_data_cache E gid (pop_key d key) w1) as [Hc Hk].
  split; [by rewrite Hc, lookup_insert_eq|]. by eapply registry_kept_compose.
Qed.

End Settings.

Lemma set_setting_cached E gid key value w :
  (∃ d, guild_cache (set_setting E true gid key value w).2 !! gid = Some d ∧
        other_keys d !! key = Some value ∧
        ∀ d0, guild_cache w !! gid = Some d0 → d = set_key d0 key value) ∧
  registry_kept w (set_setting E true gid key value w).2 ∧
  set_setting E false gid key value w = (SettingsAdminOnly, w).
Proof.
  destruct (set_setting_document E gid key value w) as [Hd Hk].
  split; [|by split].
  eexists. split; [exact Hd|]. split; [apply lookup_insert_eq|].
  intros d0 Hd0. by rewrite load_guild_data_eq, Hd0.
Qed.

Lemma pop_after_set_cached E gid key value w :
  let w1 := (set_setting E true gid key value w).2 in
  let w2 := (pop_setting E true gid key w1).2 in
  guild_cache w2 !! gid = Some (pop_key (load_guild_data E gid w).1 key) ∧
  (∃ d, guild_cache w2 !! gid = Some d ∧ other_keys d !! key = None) ∧
  registry_kept w w2 ∧
  pop_setting E false gid key w = (SettingsAdminOnly, w).
Proof.
  cbv zeta.
  destruct (set_setting_document E gid key value w) as [Hd1 Hk1].
  destruct (pop_setting_document E gid key (set_setting E true gid key value w).2)
    as [Hd2 Hk2].
  rewrite load_guild_data_eq in Hd2 at 1. rewrite Hd1 in Hd2. cbn [fst] in Hd2.
  assert (pop_key (set_key (load_guild_data E gid w).1 key value) key
          = pop_key (load_guild_data E gid w).1 key) as Hpop.
  { unfold pop_key, set_key. simpl. by rewrite delete_insert_eq. }
  rewrite Hpop in Hd2. split; [done|]. split.
  - eexists. split; [exact Hd2|]. apply lookup_delete_eq.
  - split; [by eapply registry_kept_compose|done].
Qed.

(** X21.  Each of the commands that set a guild setting ([/join],
    [/leave], [/join_message], [/leave_message],
    [/role_assign_on_join]) puts the value under its key in the cached
    document of the guild and keeps everything else of a document that
    was already cached; this holds whatever the store answers, and the
    in-memory command map and the tree are untouched.  Without the
    administrator permission nothing changes. *)
Theorem setting_is_cached_whatever_the_store E :
  Forall (λ '(cmd, key), ∀ gid value w,
    (∃ d, guild_cache (cmd true gid value w).2 !! gid = Some d ∧
          other_keys d !! key = Some value ∧
          ∀ d0, guild_cache w !! gid = Some d0 → d = set_key d0 key value) ∧
    registry_kept w (cmd true gid value w).2 ∧
    cmd false gid value w = (SettingsAdminOnly, w))
  (setting_commands E).
Proof.
  unfold setting_commands.
  repeat (constructor; [intros gid value w; apply set_setting_cached|]).
  constructor.
Qed.

(** X22.  Each of the commands that remove a setting ([/unjoin],
    [/unleave], [/unroleassignonjoin]), run after the command that sets
    it, leaves the cached document without the key and otherwise as it
    was before the setting, whatever the store answered in between; the
    in-memory command map and the tree are untouched.  Without the
    administrator permission nothing changes. *)
Theorem unset_after_set E :
  Forall (λ '(unset, set, key), ∀ gid value w,
    let w1 := (set true gid value w).2 in
    let w2 := (unset true gid w1).2 in
    guild_cache w2 !! gid = Some (pop_key (load_guild_data E gid w).1 key) ∧
    (∃ d, guild_cache w2 !! gid = Some d ∧ other_keys d !! key = None) ∧
    registry_kept w w2 ∧
    unset false gid w = (SettingsAdminOnly, w))
  (unsetting_commands E).
Proof.
  unfold unsetting_commands.
  repeat (constructor; [intros gid value w; apply pop_after_set_cached|]).
  constructor.
Qed.

(** * Further properties of the storage setup *)

Section Setup.
Context (E : Env).

Lemma save_guild_bin_config_eq guild_id bin master w :
  save_guild_bin_config E guild_id bin master w =
    let (r, w1) := jsonbin_get_loop 3 (ROOT_BIN_ID E) (JSONBIN_MASTER_KEY E) w in
    jsonbin_put_loop 3 (ROOT_BIN_ID E) (JSONBIN_MASTER_KEY E)
      {| guild_bin_configs :=
           Some (<[guild_id := {| bin_id := bin; master_key := master |}]>
                   (default ∅ (guild_bin_configs (default empty_doc r))));
         dynamic_commands := dynamic_commands (default empty_doc r);
         other_keys := other_keys (default empty_doc r) |} w1.
Proof.
  unfold save_guild_bin_config, save_root_record, get_root_record, _jsonbin_get, _jsonbin_put.
  unfold bind, ret.
  by destruct (jsonbin_get_loop 3 (ROOT_BIN_ID E) (JSONBIN_MASTER_KEY E) w).
Qed.

Lemma save_guild_bin_config_store_only guild_id bin master w :
  store_only w (save_guild_bin_config E guild_id bin master w).2.
Proof.
  rewrite save_guild_bin_config_eq.
  pose proof (jsonbin_get_loop_store_only 3 (ROOT_BIN_ID E) (JSONBIN_MASTER_KEY E) w) as Hg.
  destruct (jsonbin_get_loop 3 (ROOT_BIN_ID E) (JSONBIN_MASTER_KEY E) w) as [r w1].
  match goal with |- context [jsonbin_put_loop 3 ?b ?k ?d w1] =>
    pose proof (jsonbin_put_loop_store_only 3 b k d w1) as Hp end.
  cbn [snd] in *. destruct Hg as (? & ? & ?), Hp as (? & ? & ?).
  repeat split; congruence.
Qed.

Lemma setup_jsonbin_eq guild_id bin master w :
  setup_jsonbin E true guild_id bin master w =
    let w0 := with_store w (tail (net w)) (trace w ++ [EvGet bin master]) in
    match default ConnectionError (head (net w)) with
    | ConnectionError => (ConnectFailed, w0)
    | Status status _ =>
        if Z.eqb status 200 then
          let (ok, w1) := save_guild_bin_config E guild_id bin master w0 in
          if ok then
            (Configured,
             (save_guild_data E guild_id empty_doc
                (with_guild_cache w1 (<[guild_id := empty_doc]> (guild_cache w1)))).2)
          else (SaveConfigFailed, w1)
        else (InvalidCredentials status, w0)
    end.
Proof.
  unfold setup_jsonbin. cbn [negb]. unfold bind at 1. unfold http_request.
  destruct (default ConnectionError (head (net w))) as [|status b]; [done|].
  destruct (Z.eqb status 200); [|done]. cbn [negb]. unfold bind at 1.
  fold (with_store w (tail (net w)) (trace w ++ [EvGet bin master])).
  match goal with |- context [save_guild_bin_config E guild_id bin master ?w0] =>
    destruct (save_guild_bin_config E guild_id bin master w0) as [[|] w1] end;
    [|done].
  cbn [negb]. unfold_monad. fold (with_guild_cache w1 (<[guild_id:=empty_doc]> (guild_cache w1))).
  match goal with |- context [save_guild_data E guild_id empty_doc ?w2] =>
    by destruct (save_guild_data E guild_id empty_doc w2) end.
Qed.

End Setup.

(** X23.  [save_guild_bin_config] writes back the root record it
    fetched with the configuration of the guild added (the
    configurations of the other guilds and the other keys are kept);
    when the three attempts to fetch the root record fail, the record it
    writes holds the configuration of this guild only. *)
Theorem save_guild_bin_config_written_record E guild_id bin master w :
  (∀ root rest,
     net w = Status 200 (JsonObject (Some root)) :: rest →
     save_guild_bin_config E guild_id bin master w =
       _jsonbin_put (ROOT_BIN_ID E) (JSONBIN_MASTER_KEY E)
         {| guild_bin_configs :=
              Some (<[guild_id := {| bin_id := bin; master_key := master |}]>
                      (default ∅ (guild_bin_configs root)));
            dynamic_commands := dynamic_commands root;
            other_keys := other_keys root |}
         (with_store w rest
            (trace w ++ [EvGet (ROOT_BIN_ID E) (JSONBIN_MASTER_KEY E)]))) ∧
  (next_fail get_fails 3 (net w) = true →
   save_guild_bin_config E guild_id bin master w =
     _jsonbin_put (ROOT_BIN_ID E) (JSONBIN_MASTER_KEY E)
       {| guild_bin_configs :=
            Some {[ guild_id := {| bin_id := bin; master_key := master |} ]};
          dynamic_commands := None; other_keys := ∅ |}
       (with_store w (drop 3 (net w))
          (trace w ++ attempts 3 (EvGet (ROOT_BIN_ID E) (JSONBIN_MASTER_KEY E))))).
Proof.
  split.
  - intros root rest Hnet. rewrite save_guild_bin_config_eq.
    rewrite (jsonbin_get_loop_first_success 3 0 _ _ w (Some root));
      [|lia|done|by rewrite Hnet].
    rewrite Hnet. done.
  - intros Hfail. rewrite save_guild_bin_config_eq.
    by rewrite (jsonbin_get_loop_fails 3 _ _ w Hfail).
Qed.

(** X24.  [/setup_jsonbin] tests the credentials with one request, not
    retried: on a connection error or a status other than 200 it stops
    there, with nothing written and nothing changed in memory.  It never
    touches the in-memory command map or the tree; when it answers that
    the storage is configured, the cached document of the guild is the
    empty one, and when the configuration could not be saved the
    document cache is as before. *)
Theorem setup_jsonbin_outcomes E guild_id bin master w :
  let r := setup_jsonbin E true guild_id bin master w in
  (r.1 = ConnectFailed ∨ (∃ status, r.1 = InvalidCredentials status) →
   r.2 = with_store w (tail (net w)) (trace w ++ [EvGet bin master])) ∧
  ((∃ status, r.1 = InvalidCredentials status) ↔
   ∃ status b, head (net w) = Some (Status status b) ∧ status ≠ 200%Z) ∧
  registry_kept w r.2 ∧
  (r.1 = Configured → guild_cache r.2 !! guild_id = Some empty_doc) ∧
  (r.1 = SaveConfigFailed → guild_cache r.2 = guild_cache w).
Proof.
  cbv zeta. rewrite setup_jsonbin_eq. cbv zeta.
  destruct (net w) as [|[|status b] rest] eqn:Hnet; cbn [head default from_option id].
  - cbn [fst snd]. split; [done|]. split; [|by repeat split].
    split; [by intros [? ?]|by intros (? & ? & ? & _)].
  - cbn [fst snd]. split; [done|]. split; [|by repeat split].
    split; [by intros [? ?]|by intros (? & ? & ? & _)].
  - destruct (Z.eqb_spec status 200) as [->|Hne].
    + match goal with |- context [save_guild_bin_config E guild_id bin master ?w0] =>
        pose proof (save_guild_bin_config_store_only E guild_id bin master w0) as Hs;
        destruct (save_guild_bin_config E guild_id bin master w0) as [[|] w1] end;
        cbn [fst snd] in *; destruct Hs as (Hc & Hg & Ht); simpl in Hc, Hg, Ht.
      * match goal with |- context [save_guild_data E guild_id empty_doc ?w2] =>
          destruct (save_guild_data_cache E guild_id empty_doc w2) as [Hsc [Hsm Hst]] end.
        simpl in Hsc, Hsm, Hst.
        split; [by intros [?|[? ?]]|]. split.
        { split; [by intros [? ?]|]. intros (? & ? & [= <- _] & ?). done. }
        split; [split; congruence|]. split; [|done].
        intros _. rewrite Hsc. apply lookup_insert_eq.
      * split; [by intros [?|[? ?]]|]. split.
        { split; [by intros [? ?]|]. intros (? & ? & [= <- _] & ?). done. }
        split; [by split|]. done.
    + cbn [fst snd]. split; [done|]. split; [|by repeat split].
      split; [|by eexists]. intros _. by exists status, b.
Qed.

(** * Further properties of the web endpoint *)

Lemma pretty_N_go_nonempty x s : s ≠ "" → pretty_N_go x s ≠ "".
Proof.
  revert s. induction (N.lt_wf_0 x) as [x _ IH]; intros s Hs.
  destruct (decide (x = 0)%N) as [->|Hx]; [by rewrite pretty_N_go_0|].
  rewrite pretty_N_go_step by lia. apply IH; [|done].
  apply N.div_lt; lia.
Qed.

Lemma py_str_empty v : py_str v = "" ↔ v = JStr "".
Proof.
  split; [|by intros ->].
  destruct v as [|[|]|z|s]; simpl; try done; [|by intros ->].
  intros Hz. exfalso. destruct z as [|p|p]; try done.
  - unfold pretty, pretty_Z, pretty, pretty_positive, pretty, pretty_N in Hz.
    case_decide; [done|]. revert Hz. rewrite pretty_N_go_step by lia.
    by apply pretty_N_go_nonempty.
Qed.

(** X25.  The endpoint answers 400 exactly when the description is
    missing or falsy or the guild id is the empty string; a request
    without [guild_id] is not refused, [str(None)] being a non-empty
    string.  Otherwise it answers 200 with what the generation
    returned. *)
Theorem describe_command_endpoint_status ai_generate_code data :
  ((describe_command_endpoint ai_generate_code data).1 = 400%Z ↔
   data !! "guild_id" = Some (JStr "") ∨
   py_truthy (default JNull (data !! "description")) = false) ∧
  ((describe_command_endpoint ai_generate_code data).1 = 400%Z ∨
   (describe_command_endpoint ai_generate_code data).1 = 200%Z) ∧
  (data !! "guild_id" = None →
   py_truthy (default JNull (data !! "description")) = true →
   describe_command_endpoint ai_generate_code data
   = (200%Z,
      ResultBody (ai_generate_code (default JNull (data !! "description"))).1.1
                 (ai_generate_code (default JNull (data !! "description"))).1.2
                 (ai_generate_code (default JNull (data !! "description"))).2)).
Proof.
  unfold describe_command_endpoint. cbv zeta.
  assert (String.eqb (py_str (default JNull (data !! "guild_id"))) "" = true
          ↔ data !! "guild_id" = Some (JStr "")) as Hgid.
  { rewrite String.eqb_eq, py_str_empty.
    destruct (data !! "guild_id") as [v|]; simpl; [|done].
    split; [by intros ->|by intros [= ->]]. }
  destruct (String.eqb (py_str (default JNull (data !! "guild_id"))) "") eqn:Hg;
    destruct (py_truthy (default JNull (data !! "description"))) eqn:Hd;
    cbn [orb negb].
  - split; [|split; [by left|]].
    + split; [intros _; left; by apply Hgid|done].
    + intros Hnone. rewrite Hnone in Hg. done.
  - split; [|split; [by left|done]]. split; [intros _; by right|done].
  - destruct (ai_generate_code (default JNull (data !! "description")))
      as [[name code] desc]. cbn [fst snd].
    split; [|split; [by right|done]].
    split; [done|]. intros [Hs|?]; [|done]. apply Hgid in Hs. done.
  - split; [|split; [by left|done]]. split; [intros _; by right|done].
Qed.
